(** * NPC dialogue scripts in Lua: metadata extraction and execution

    A shallow embedding of [src/map/lua_interpreter.cpp] and
    [src/map/lua_bridge.cpp].  The C++ code is a thin layer over the Lua 5.4
    C API, so the development has three layers:

    - the Lua virtual machine as the C API shows it (values, the stack, the
      global table, coroutines), written after the Lua 5.4 reference manual;
    - the functions of the two source files, translated call by call;
    - the properties of the extraction stage and of the executor.

    What the Lua core does with program text (the compiler, the binary
    dump format, string to number conversion, floating point) is taken as
    given through the class [LuaCore].  Compiled functions are bodies of a
    small statement language, which the model can run. *)

From Stdlib Require Import ZArith List String Ascii Bool Lia DecimalString.
Import ListNotations.
Local Open Scope string_scope.
Local Open Scope Z_scope.
Set Warnings "-register-all".

(** ** Compiled functions

    A function prototype is the list of its statements.  The fragment has
    global assignment, call statements and [return]; expressions are
    constants, global variables, fields by name ([coroutine.yield]), table
    constructors with name keys and function literals without parameters.
    Locals, upvalues other than the global environment, arithmetic and
    control structures are outside the fragment. *)

Inductive expr : Type :=
| ENil
| ETrue
| EFalse
| EInt (n : Z)
| EStr (s : string)
| EGlobal (x : string)
| EIndex (e : expr) (k : string)
| ETable (fields : list (string * expr))
| EFunction (body : list stmt)
with stmt : Type :=
| SAssign (x : string) (e : expr)
| SCall (f : expr) (args : list expr)
| SReturn (es : list expr).

Definition block := list stmt.

(** ** The parts of the Lua core taken as given *)

Class LuaCore := {
  (** the C type [double] behind [lua_Number] *)
  lua_Number : Type;
  (** [luaO_str2num]: a string read as a number, integer or float *)
  luaO_str2num : string -> option (Z + lua_Number);
  (** [luaV_flttointns] in mode F2Ieq: a float with an exact integer value *)
  luaV_flttointns : lua_Number -> option Z;
  (** [lua_Number2str]: a float printed by "%.14g" *)
  lua_Number2str : lua_Number -> string;
  (** [luaY_parser]: source text and chunk name to the main function, or
      the message of the syntax error *)
  luaY_parser : string -> string -> string + block;
  (** [luaU_dump]: the pieces of the binary form handed to the writer, for
      a prototype and the strip flag *)
  luaU_dump : block -> bool -> list string;
  (** [luaU_undump]: a binary chunk and its name to the function, or the
      message of the error *)
  luaU_undump : string -> string -> string + block
}.

(** ** Status codes of lua.h *)

Inductive lua_status : Type :=
| LUA_OK | LUA_YIELD | LUA_ERRRUN | LUA_ERRSYNTAX | LUA_ERRMEM | LUA_ERRERR.

Definition status_code (s : lua_status) : Z :=
  match s with
  | LUA_OK => 0 | LUA_YIELD => 1 | LUA_ERRRUN => 2
  | LUA_ERRSYNTAX => 3 | LUA_ERRMEM => 4 | LUA_ERRERR => 5
  end.

Definition lua_status_eqb (a b : lua_status) : bool :=
  status_code a =? status_code b.

(** [lua_Integer2str]: "%lld" *)
Definition lua_Integer2str (i : Z) : string := NilZero.string_of_int (Z.to_int i).

(** The cast [(int)] of a [lua_Integer]: the low 32 bits, signed. *)
Definition cast_int (i : Z) : Z := (i + 2 ^ 31) mod 2 ^ 32 - 2 ^ 31.

Definition newline : string := String (ascii_of_nat 10) EmptyString.

(** [LUA_SIGNATURE[0]], the first byte of every binary chunk *)
Definition LUA_SIGNATURE0 : ascii := ascii_of_nat 27.

(** [strchr(s, c) != NULL] *)
Fixpoint strchr (s : string) (c : ascii) : bool :=
  match s with
  | EmptyString => false
  | String d s' => if Ascii.eqb c d then true else strchr s' c
  end.

(** ** The map server as the bridge sees it

    [clif.hpp], [npc.hpp], [pc.hpp] and [showmsg.hpp] are not among the
    sources at hand.  Pointers to session and NPC data are addresses, 0 is
    [nullptr]. *)

(** Modelled from the spec: the three notifications of the network layer,
    "send dialogue text for session S addressed from entity E", "notify
    session S dialogue may advance for entity E" and "notify session S
    dialogue ended for entity E" ([clif_scriptmes], [clif_scriptnext],
    [clif_scriptclose] of clif.hpp), as the packets they send. *)
Inductive clif_packet : Type :=
| scriptmes (sd : Z) (npcid : Z) (mes : string)
| scriptnext (sd : Z) (npcid : Z)
| scriptclose (sd : Z) (npcid : Z).

(** Modelled from the spec: what the bridge touches of the map server.
    [bl_id] reads the field [bl.id] of the [npc_data] at an address
    (npc.hpp), [clif_sent] holds the packets sent so far, oldest first
    (the notifications are fire-and-forget), and [showmsg] the lines that
    [ShowWarning] has logged (showmsg.hpp). *)
Record map_server : Type := {
  bl_id : Z -> Z;
  clif_sent : list clif_packet;
  showmsg : list string
}.

Definition clif_send (p : clif_packet) (srv : map_server) : map_server :=
  {| bl_id := bl_id srv; clif_sent := clif_sent srv ++ [p]; showmsg := showmsg srv |}.

(** Modelled from the spec: [ShowWarning] of showmsg.hpp logs the line. *)
Definition ShowWarning (msg : string) (srv : map_server) : map_server :=
  {| bl_id := bl_id srv; clif_sent := clif_sent srv; showmsg := showmsg srv ++ [msg] |}.

(** ** Values and states of the virtual machine *)

(** The C functions that can be stored in a VM of this program: the three
    bridge functions, the message handler of the extraction stage, and the
    functions of the standard library, by name. *)
Inductive lua_CFunction : Type :=
| c_lua_error_handler
| c_mes
| c_next
| c_close
| c_lib (name : string).

Section Values.
Context {core : LuaCore}.

Inductive TValue : Type :=
| VNil
| VBoolean (b : bool)
| VInteger (i : Z)
| VFloat (n : lua_Number)
| VString (s : string)
| VTable (h : list (string * TValue))
| VLClosure (p : block)
| VCFunction (f : lua_CFunction)
| VLightUserdata (p : Z)
| VThread (id : nat).

(** Tables have string keys and no metatable; a key bound to nil is absent. *)
Definition Table := list (string * TValue).

Fixpoint luaH_getstr (h : Table) (k : string) : TValue :=
  match h with
  | [] => VNil
  | (k', v) :: h' => if String.eqb k k' then v else luaH_getstr h' k
  end.

Fixpoint luaH_remove (h : Table) (k : string) : Table :=
  match h with
  | [] => []
  | (k', v) :: h' => if String.eqb k k' then luaH_remove h' k else (k', v) :: luaH_remove h' k
  end.

Definition luaH_set (h : Table) (k : string) (v : TValue) : Table :=
  match v with
  | VNil => luaH_remove h k
  | _ => (k, v) :: luaH_remove h k
  end.

(** A coroutine: its visible stack, the suspended calls (innermost first,
    each the statements still to run) and its status. *)
Record lua_Thread : Type := {
  th_stack : list TValue;
  th_ci : list block;
  th_status : lua_status
}.

(** What all threads of one VM share.  [l_srv] is the map server as the C
    functions called from this VM see and change it. *)
Record global_State : Type := {
  l_gt : Table;
  l_threads : list lua_Thread;
  l_srv : map_server
}.

(** A [lua_State*] in the hands of a C function: the stack of the running
    call (bottom first), whether that call may yield, and the shared part. *)
Record lua_State : Type := {
  stack : list TValue;
  l_yieldable : bool;
  l_G : global_State
}.

Definition set_stack (L : lua_State) (s : list TValue) : lua_State :=
  {| stack := s; l_yieldable := l_yieldable L; l_G := l_G L |}.

Definition set_G (L : lua_State) (g : global_State) : lua_State :=
  {| stack := stack L; l_yieldable := l_yieldable L; l_G := g |}.

Definition set_gt (g : global_State) (t : Table) : global_State :=
  {| l_gt := t; l_threads := l_threads g; l_srv := l_srv g |}.

Definition set_threads (g : global_State) (ts : list lua_Thread) : global_State :=
  {| l_gt := l_gt g; l_threads := ts; l_srv := l_srv g |}.

Definition set_srv (g : global_State) (srv : map_server) : global_State :=
  {| l_gt := l_gt g; l_threads := l_threads g; l_srv := srv |}.

Definition with_srv (f : map_server -> map_server) (L : lua_State) : lua_State :=
  set_G L (set_srv (l_G L) (f (l_srv (l_G L)))).

(** *** Type names and run-time error messages

    The position prefix ("chunk:line:") and the variable name that the VM
    adds to its messages are left out. *)

Definition luaT_objtypename (v : TValue) : string :=
  match v with
  | VNil => "nil"
  | VBoolean _ => "boolean"
  | VInteger _ | VFloat _ => "number"
  | VString _ => "string"
  | VTable _ => "table"
  | VLClosure _ | VCFunction _ => "function"
  | VLightUserdata _ => "userdata"
  | VThread _ => "thread"
  end.

Definition luaG_typeerror (v : TValue) (op : string) : TValue :=
  VString ("attempt to " ++ op ++ " a " ++ luaT_objtypename v ++ " value").

End Values.

(** ** The C API

    A call of the API either returns or raises a Lua error (a long jump to
    the closest protected call). *)

Section Monad.
Context {core : LuaCore}.

Inductive result (A : Type) : Type :=
| Ok (a : A) (L : lua_State)
| Throw (e : TValue) (L : lua_State).

Definition API (A : Type) : Type := lua_State -> result A.

Definition ret {A} (a : A) : API A := fun L => Ok A a L.

Definition bind {A B} (m : API A) (k : A -> API B) : API B :=
  fun L => match m L with
           | Ok _ a L' => k a L'
           | Throw _ e L' => Throw B e L'
           end.

(** a query that leaves the state as it is *)
Definition gets {A} (f : lua_State -> A) : API A := fun L => Ok A (f L) L.

(** a change of the state *)
Definition modify (f : lua_State -> lua_State) : API unit := fun L => Ok unit tt (f L).

End Monad.

Arguments Ok {core A} a L.
Arguments Throw {core A} e L.

Declare Scope lua_scope.
Delimit Scope lua_scope with lua.
Notation "x <- m ;; k" := (bind m (fun x => k))
  (at level 61, m at next level, right associativity) : lua_scope.
Notation "m ;;; k" := (bind m (fun _ => k))
  (at level 61, right associativity) : lua_scope.
Local Open Scope lua_scope.

Section API.
Context {core : LuaCore}.

(** *** Stack indices *)

(** The slot of an index: positive indices count from the bottom, negative
    ones from the top.  Pseudo-indices are not used by this program. *)
Definition stack_slot (L : lua_State) (idx : Z) : option nat :=
  let n := Z.of_nat (List.length (stack L)) in
  if (0 <? idx) && (idx <=? n) then Some (Z.to_nat (idx - 1))
  else if (idx <? 0) && (0 <=? n + idx) then Some (Z.to_nat (n + idx))
  else None.

(** [None] is LUA_TNONE. *)
Definition index2value (L : lua_State) (idx : Z) : option TValue :=
  match stack_slot L idx with
  | Some i => nth_error (stack L) i
  | None => None
  end.

Fixpoint list_update {A} (l : list A) (i : nat) (a : A) : list A :=
  match l, i with
  | [], _ => []
  | _ :: l', O => a :: l'
  | b :: l', S i' => b :: list_update l' i' a
  end.

Fixpoint resize (n : nat) (s : list TValue) : list TValue :=
  match n with
  | O => []
  | S n' => match s with
            | [] => VNil :: resize n' []
            | v :: s' => v :: resize n' s'
            end
  end.

Definition api_push (v : TValue) (L : lua_State) : lua_State :=
  set_stack L (stack L ++ [v]).

Definition lua_gettop (L : lua_State) : Z := Z.of_nat (List.length (stack L)).

Definition lua_settop (idx : Z) (L : lua_State) : lua_State :=
  if 0 <=? idx then set_stack L (resize (Z.to_nat idx) (stack L))
  else set_stack L (resize (Z.to_nat (lua_gettop L + idx + 1)) (stack L)).

Definition lua_pop (n : Z) (L : lua_State) : lua_State := lua_settop (- n - 1) L.

Definition lua_pushvalue (idx : Z) (L : lua_State) : lua_State :=
  match index2value L idx with
  | Some v => api_push v L
  | None => api_push VNil L
  end.

Definition lua_pushcfunction (f : lua_CFunction) (L : lua_State) : lua_State :=
  api_push (VCFunction f) L.

Definition lua_pushlightuserdata (p : Z) (L : lua_State) : lua_State :=
  api_push (VLightUserdata p) L.

Definition lua_pushliteral (s : string) (L : lua_State) : lua_State :=
  api_push (VString s) L.

(** *** Type tests *)

Definition lua_istable (L : lua_State) (idx : Z) : bool :=
  match index2value L idx with Some (VTable _) => true | _ => false end.

Definition lua_isfunction (L : lua_State) (idx : Z) : bool :=
  match index2value L idx with
  | Some (VLClosure _) | Some (VCFunction _) => true
  | _ => false
  end.

Definition lua_isnil (L : lua_State) (idx : Z) : bool :=
  match index2value L idx with Some VNil => true | _ => false end.

Definition lua_isnoneornil (L : lua_State) (idx : Z) : bool :=
  match index2value L idx with Some VNil | None => true | _ => false end.

Definition lua_islightuserdata (L : lua_State) (idx : Z) : bool :=
  match index2value L idx with Some (VLightUserdata _) => true | _ => false end.

(** a number, or a string convertible to a number *)
Definition v_isnumber (v : TValue) : bool :=
  match v with
  | VInteger _ | VFloat _ => true
  | VString s => match luaO_str2num s with Some _ => true | None => false end
  | _ => false
  end.

Definition lua_isnumber (L : lua_State) (idx : Z) : bool :=
  match index2value L idx with Some v => v_isnumber v | None => false end.

(** a string or a number (which is always convertible to a string) *)
Definition v_isstring (v : TValue) : bool :=
  match v with
  | VString _ | VInteger _ | VFloat _ => true
  | _ => false
  end.

Definition lua_isstring (L : lua_State) (idx : Z) : bool :=
  match index2value L idx with Some v => v_isstring v | None => false end.

(** *** Conversions *)

(** [lua_tointegerx]: the integer of an integer, of a float with an exact
    integer value, and of a string that converts to one of these *)
Definition v_tointegerx (v : TValue) : option Z :=
  match v with
  | VInteger i => Some i
  | VFloat n => luaV_flttointns n
  | VString s => match luaO_str2num s with
                 | Some (inl i) => Some i
                 | Some (inr n) => luaV_flttointns n
                 | None => None
                 end
  | _ => None
  end.

(** [lua_tointeger]: 0 where [lua_tointegerx] fails *)
Definition v_tointeger (v : TValue) : Z :=
  match v_tointegerx v with Some i => i | None => 0 end.

Definition lua_tointeger (L : lua_State) (idx : Z) : Z :=
  match index2value L idx with Some v => v_tointeger v | None => 0 end.

Definition luaO_tostring (v : TValue) : option string :=
  match v with
  | VString s => Some s
  | VInteger i => Some (lua_Integer2str i)
  | VFloat n => Some (lua_Number2str n)
  | _ => None
  end.

(** [lua_tostring]: [None] is the NULL pointer.  A number is converted in
    place: the slot holds the string afterwards. *)
Definition lua_tostring (idx : Z) (L : lua_State) : option string * lua_State :=
  match stack_slot L idx, index2value L idx with
  | Some i, Some v =>
      match luaO_tostring v with
      | Some s => (Some s, set_stack L (list_update (stack L) i (VString s)))
      | None => (None, L)
      end
  | _, _ => (None, L)
  end.

(** [lua_touserdata] of a light userdata is its pointer; full userdata does
    not occur in this program. *)
Definition lua_touserdata (L : lua_State) (idx : Z) : Z :=
  match index2value L idx with Some (VLightUserdata p) => p | _ => 0 end.

(** *** Tables and globals *)

Definition lib_table (prefix : string) (names : list string) : Table :=
  map (fun n => (n, VCFunction (c_lib (prefix ++ n)))) names.

(** the table behind the [__index] field of the metatable of strings *)
Definition string_lib : Table :=
  lib_table "string."
    ["byte"; "char"; "dump"; "find"; "format"; "gmatch"; "gsub"; "len"; "lower";
     "match"; "pack"; "packsize"; "rep"; "reverse"; "sub"; "unpack"; "upper"].

(** [luaV_finishget] with a string key: a table is read, a string is looked
    up in the string library, any other value cannot be indexed. *)
Definition luaV_get (t : TValue) (k : string) : TValue + TValue :=
  match t with
  | VTable h => inl (luaH_getstr h k)
  | VString _ => inl (luaH_getstr string_lib k)
  | _ => inr (luaG_typeerror t "index")
  end.

Definition lua_getfield (idx : Z) (k : string) : API unit :=
  fun L =>
    match index2value L idx with
    | Some t => match luaV_get t k with
                | inl v => Ok tt (api_push v L)
                | inr e => Throw e L
                end
    | None => Throw (luaG_typeerror VNil "index") L
    end.

Definition lua_getglobal (name : string) (L : lua_State) : lua_State :=
  api_push (luaH_getstr (l_gt (l_G L)) name) L.

(** pops the top of the stack into the global [name] *)
Definition lua_setglobal (name : string) (L : lua_State) : lua_State :=
  match index2value L (-1) with
  | Some v => set_G (lua_pop 1 L) (set_gt (l_G L) (luaH_set (l_gt (l_G L)) name v))
  | None => L
  end.

Definition lua_register (name : string) (f : lua_CFunction) (L : lua_State) : lua_State :=
  lua_setglobal name (lua_pushcfunction f L).

(** *** States and libraries *)

Definition luaL_newstate (srv : map_server) : lua_State :=
  {| stack := []; l_yieldable := false;
     l_G := {| l_gt := []; l_threads := []; l_srv := srv |} |}.

(** The globals [luaL_openlibs] defines.  Library fields that are not
    functions or integers (math.pi, io.stdout, the package tables) and the
    self-reference [_G] are left out. *)
Definition base_lib : Table :=
  (lib_table ""
    ["assert"; "collectgarbage"; "dofile"; "error"; "getmetatable"; "ipairs";
     "load"; "loadfile"; "next"; "pairs"; "pcall"; "print"; "rawequal"; "rawget";
     "rawlen"; "rawset"; "require"; "select"; "setmetatable"; "tonumber";
     "tostring"; "type"; "warn"; "xpcall"]
  ++ [("_VERSION", VString "Lua 5.4");
      ("coroutine", VTable (lib_table "coroutine."
         ["close"; "create"; "isyieldable"; "resume"; "running"; "status"; "wrap"; "yield"]));
      ("table", VTable (lib_table "table."
         ["concat"; "insert"; "move"; "pack"; "remove"; "sort"; "unpack"]));
      ("io", VTable (lib_table "io."
         ["close"; "flush"; "input"; "lines"; "open"; "output"; "popen"; "read";
          "tmpfile"; "type"; "write"]));
      ("os", VTable (lib_table "os."
         ["clock"; "date"; "difftime"; "execute"; "exit"; "getenv"; "remove";
          "rename"; "setlocale"; "time"; "tmpname"]));
      ("string", VTable string_lib);
      ("math", VTable ((lib_table "math."
         ["abs"; "acos"; "asin"; "atan"; "ceil"; "cos"; "deg"; "exp"; "floor";
          "fmod"; "log"; "max"; "min"; "modf"; "rad"; "random"; "randomseed";
          "sin"; "sqrt"; "tan"; "tointeger"; "type"; "ult"]
         ++ [("maxinteger", VInteger (2 ^ 63 - 1)); ("mininteger", VInteger (- 2 ^ 63))])%list));
      ("utf8", VTable (lib_table "utf8."
         ["char"; "codepoint"; "codes"; "len"; "offset"]));
      ("debug", VTable (lib_table "debug."
         ["debug"; "gethook"; "getinfo"; "getlocal"; "getmetatable"; "getregistry";
          "getupvalue"; "getuservalue"; "sethook"; "setcstacklimit"; "setlocal";
          "setmetatable"; "setupvalue"; "setuservalue"; "traceback"; "upvalueid";
          "upvaluejoin"]));
      ("package", VTable (lib_table "package." ["loadlib"; "searchpath"]))])%list.

Definition luaL_openlibs (L : lua_State) : lua_State :=
  set_G L (set_gt (l_G L)
    (fold_left (fun t kv => luaH_set t (fst kv) (snd kv)) base_lib (l_gt (l_G L)))).

(** *** Loading chunks *)

(** A reader hands out the chunk piece by piece; [None] or an empty piece
    ends it. *)
Definition lua_Reader (D : Type) : Type := lua_State -> D -> option string * D.

(** The chunk [lua_load] gets from a reader that it asks at most [n] times;
    [None] when the reader has not ended the chunk by then. *)
Fixpoint luaZ_read {D} (n : nat) (L : lua_State) (reader : lua_Reader D) (data : D)
  : option string :=
  match n with
  | O => None
  | S n' =>
      match reader L data with
      | (None, _) => Some ""
      | (Some "", _) => Some ""
      | (Some piece, data') =>
          match luaZ_read n' L reader data' with
          | Some more => Some (piece ++ more)
          | None => None
          end
      end
  end.

(** [checkmode]: the message of the error when the mode string does not
    allow chunks of kind [x]; a NULL mode allows both kinds. *)
Definition checkmode (mode : option string) (x : string) : option string :=
  match mode, x with
  | Some m, String c _ =>
      if strchr m c then None
      else Some ("attempt to load a " ++ x ++ " chunk (mode is '" ++ m ++ "')")
  | _, _ => None
  end.

(** [luaD_protectedparser] on a whole chunk: a chunk that starts with the
    signature byte is binary, any other is text. *)
Definition f_parser (chunk chunkname : string) (mode : option string) : string + block :=
  match chunk with
  | String c _ =>
      if Ascii.eqb c LUA_SIGNATURE0 then
        match checkmode mode "binary" with
        | Some msg => inl msg
        | None => luaU_undump chunk chunkname
        end
      else
        match checkmode mode "text" with
        | Some msg => inl msg
        | None => luaY_parser chunk chunkname
        end
  | EmptyString =>
      match checkmode mode "text" with
      | Some msg => inl msg
      | None => luaY_parser chunk chunkname
      end
  end.

(** [lua_load] of a chunk already read: pushes the compiled function and
    returns LUA_OK, or pushes the message and returns LUA_ERRSYNTAX. *)
Definition load_chunk (chunk chunkname : string) (mode : option string) (L : lua_State)
  : lua_status * lua_State :=
  match f_parser chunk chunkname mode with
  | inr p => (LUA_OK, api_push (VLClosure p) L)
  | inl msg => (LUA_ERRSYNTAX, api_push (VString msg) L)
  end.

Definition lua_load {D} (n : nat) (reader : lua_Reader D) (data : D)
    (chunkname : string) (mode : option string) (L : lua_State)
  : option (lua_status * lua_State) :=
  match luaZ_read n L reader data with
  | Some chunk => Some (load_chunk chunk chunkname mode L)
  | None => None
  end.

(** [luaL_loadbufferx] reads the buffer in one piece; [luaL_loadbuffer] is
    [luaL_loadbufferx] with a NULL mode. *)
Definition luaL_loadbufferx (buff name : string) (mode : option string) (L : lua_State)
  : lua_status * lua_State :=
  load_chunk buff name mode L.

Definition luaL_loadbuffer (buff name : string) (L : lua_State) : lua_status * lua_State :=
  luaL_loadbufferx buff name None L.

(** *** Dumping functions *)

(** A writer receives a piece and returns an error code, 0 for none. *)
Definition lua_Writer (W : Type) : Type := lua_State -> string -> W -> Z * W.

Fixpoint dump_pieces {W} (L : lua_State) (writer : lua_Writer W) (pieces : list string)
    (data : W) : Z * W :=
  match pieces with
  | [] => (0, data)
  | b :: rest =>
      let (st, data') := writer L b data in
      if st =? 0 then dump_pieces L writer rest data' else (st, data')
  end.

(** [lua_dump] of the function on the top of the stack; a C function is
    not dumped and the result is 1. *)
Definition lua_dump {W} (writer : lua_Writer W) (data : W) (strip : Z) (L : lua_State)
  : Z * W :=
  match index2value L (-1) with
  | Some (VLClosure p) => dump_pieces L writer (luaU_dump p (negb (strip =? 0))) data
  | _ => (1, data)
  end.

(** *** Tracebacks and metamethods *)

(** [luaL_traceback(L, L, msg, level)] pushes the message, a newline and
    the traceback; the lines of the frames are left out. *)
Definition luaL_traceback (msg : string) (level : Z) (L : lua_State) : lua_State :=
  api_push (VString (msg ++ newline ++ "stack traceback:")) L.

(** [luaL_callmeta]: no value of the model has a metatable with an event
    other than the [__index] of strings, so nothing is called or pushed. *)
Definition luaL_callmeta (obj : Z) (event : string) (L : lua_State) : bool * lua_State :=
  (false, L).

(** *** Coroutines: the calls that do not run code *)

(** pushes a new thread with an empty stack and returns its handle *)
Definition lua_newthread (L : lua_State) : nat * lua_State :=
  let id := List.length (l_threads (l_G L)) in
  let th := {| th_stack := []; th_ci := []; th_status := LUA_OK |} in
  (id, api_push (VThread id) (set_G L (set_threads (l_G L) (l_threads (l_G L) ++ [th])))).

(** [lua_xmove(from, to, n)] where [from] is the state at hand and [to] a
    coroutine of the same VM *)
Definition lua_xmove (to : nat) (n : Z) (L : lua_State) : lua_State :=
  let k := Z.to_nat (lua_gettop L - n) in
  let moved := skipn k (stack L) in
  match nth_error (l_threads (l_G L)) to with
  | Some th =>
      let th' := {| th_stack := th_stack th ++ moved; th_ci := th_ci th;
                    th_status := th_status th |} in
      set_stack (set_G L (set_threads (l_G L) (list_update (l_threads (l_G L)) to th')))
                (firstn k (stack L))
  | None => L
  end.

(** [lua_yield] called as the last action of a C function: in a coroutine
    the call does not return to the function; elsewhere it is an error. *)
Inductive c_result : Type :=
| CReturn (n : Z) (L : lua_State)
| CYield (n : Z) (L : lua_State)
| CThrow (e : TValue) (L : lua_State).

Definition lua_yield (nresults : Z) (L : lua_State) : c_result :=
  if l_yieldable L then CYield nresults L
  else CThrow (VString "attempt to yield from outside a coroutine") L.

End API.

(** ** lua_interpreter.cpp, the anonymous namespace: the message handler *)

Section ErrorHandler.
Context {core : LuaCore}.

(** [lua_error_handler]: the C function that [extract_metadata] installs
    as message handler of its protected call. *)
Definition lua_error_handler (L : lua_State) : c_result :=
  let (message, L1) := lua_tostring 1 L in
  match message with
  | Some m => CReturn 1 (luaL_traceback m 1 L1)
  | None =>
      if negb (lua_isnoneornil L1 1) then
        let (called, L2) := luaL_callmeta 1 "__tostring" L1 in
        if negb called then CReturn 1 (lua_pushliteral "(no error message)" L2)
        else CReturn 1 L2
      else CReturn 1 L1
  end.

End ErrorHandler.

(** ** lua_bridge.hpp: namespace lua_helpers *)

Module lua_helpers.
Section Helpers.
Context {core : LuaCore}.

(** [extract_user_data<T>]: the pointer held by the global [name], or
    [nullptr] when the global is no light userdata. *)
Definition extract_user_data (name : string) (L : lua_State) : Z * lua_State :=
  let L1 := lua_getglobal name L in
  if negb (lua_islightuserdata L1 (-1)) then (0, lua_pop 1 L1)
  else
    let user_data := lua_touserdata L1 (-1) in
    (user_data, lua_pop 1 L1).

Definition SD_LUA_VARIABLE : string := "__map_session_data__".
Definition ND_LUA_VARIABLE : string := "__npc_data__".

Definition extract_session_data (L : lua_State) : Z * lua_State :=
  extract_user_data SD_LUA_VARIABLE L.

Definition extract_npc_data (L : lua_State) : Z * lua_State :=
  extract_user_data ND_LUA_VARIABLE L.

End Helpers.
End lua_helpers.

(** ** lua_bridge.cpp

    The functions [mes], [next] and [close] are the callables that the
    specification calls showMessage, advance and endDialogue. *)

Module lua_bridge.
Section Bridge.
Context {core : LuaCore}.

Record script_context : Type := {
  sd : Z;
  nd : Z;
  args : Z
}.

(** the constructor of [script_context], from a Lua state *)
Definition new_script_context (L : lua_State) : script_context * lua_State :=
  let a := lua_gettop L in
  let (s, L1) := lua_helpers.extract_session_data L in
  let (n, L2) := lua_helpers.extract_npc_data L1 in
  ({| sd := s; nd := n; args := a |}, L2).

Definition is_valid (context : script_context) : bool :=
  negb (sd context =? 0) && negb (nd context =? 0).

(** Modelled from the spec: the three functions of clif.hpp send their
    packet to the session. *)
Definition clif_scriptmes (sd npcid : Z) (mes : string) : map_server -> map_server :=
  clif_send (scriptmes sd npcid mes).

Definition clif_scriptnext (sd npcid : Z) : map_server -> map_server :=
  clif_send (scriptnext sd npcid).

Definition clif_scriptclose (sd npcid : Z) : map_server -> map_server :=
  clif_send (scriptclose sd npcid).

(** [context.nd->bl.id] *)
Definition nd_bl_id (context : script_context) (L : lua_State) : Z :=
  bl_id (l_srv (l_G L)) (nd context).

Definition mes (L : lua_State) : c_result :=
  let (context, L) := new_script_context L in
  if negb (is_valid context) then
    CReturn 0 (with_srv
      (ShowWarning ("[lua::mes]: Trying to call with no proper context." ++ newline)) L)
  else if args context <? 1 then
    CReturn 0 (with_srv
      (ShowWarning ("[lua::mes]: Trying to call with no parameters." ++ newline)) L)
  else if negb (lua_isstring L 1) then
    CReturn 0 (with_srv
      (ShowWarning ("[lua::mes]: First parameter must be a string." ++ newline)) L)
  else
    let (msg, L) := lua_tostring 1 L in
    match msg with
    | Some m => CReturn 0 (with_srv (clif_scriptmes (sd context) (nd_bl_id context L) m) L)
    | None => CReturn 0 L  (* not reached: [lua_isstring] held *)
    end.

Definition next (L : lua_State) : c_result :=
  let (context, L) := new_script_context L in
  if negb (is_valid context) then CReturn 0 L
  else
    let L := with_srv (clif_scriptnext (sd context) (nd_bl_id context L)) L in
    lua_yield 0 L.

Definition close (L : lua_State) : c_result :=
  let (context, L) := new_script_context L in
  if negb (is_valid context) then CReturn 0 L
  else CReturn 0 (with_srv (clif_scriptclose (sd context) (nd_bl_id context L)) L).

End Bridge.
End lua_bridge.

(** ** Running code *)

(** How a call of the embedded program can end besides returning: the
    process is lost, or the model stops following it. *)
Inductive model_limit : Type :=
| FuelExhausted
| LibraryCall (name : string).

Section Machine.
Context {core : LuaCore}.

Inductive abort_reason : Type :=
| Panic (e : TValue)           (* unprotected Lua error: the panic function, then abort() *)
| NullPointer (what : string). (* a null pointer used: undefined behaviour *)

Inductive outcome (A : Type) : Type :=
| Returns (a : A)
| Aborts (why : abort_reason)
| Unfinished (why : model_limit).

(** [luaB_error], the global [error]: raises its first argument.  The
    second argument is the level, an optional integer; the position that
    level 1 adds in front of a string message is left out. *)
Definition luaB_error (L : lua_State) : c_result :=
  let level_ok :=
    match index2value L 2 with
    | None | Some VNil => true
    | Some v => match v_tointegerx v with Some _ => true | None => false end
    end in
  if negb level_ok then CThrow (VString "bad argument #2 to 'error' (number expected)") L
  else
    let L1 := lua_settop 1 L in
    match index2value L1 1 with
    | Some v => CThrow v L1
    | None => CThrow VNil L1
    end.

(** [luaB_yield] of lcorolib.c, the library function [coroutine.yield]:
    yields with all its arguments. *)
Definition luaB_yield (L : lua_State) : c_result := lua_yield (lua_gettop L) L.

(** the name of the type of an argument in the message of [luaL_typeerror] *)
Definition luaL_typearg (L : lua_State) (arg : Z) : string :=
  match index2value L arg with
  | None => "no value"
  | Some (VLightUserdata _) => "light userdata"
  | Some v => luaT_objtypename v
  end.

(** [luaB_cocreate] of lcorolib.c, the library function [coroutine.create]:
    checks that its argument is a function, creates a coroutine, moves
    the function into it and returns the coroutine. *)
Definition luaB_cocreate (L : lua_State) : c_result :=
  if negb (lua_isfunction L 1) then
    CThrow (VString ("bad argument #1 to 'create' (function expected, got "
                     ++ luaL_typearg L 1 ++ ")")) L
  else
    let (NL, L) := lua_newthread L in
    let L := lua_pushvalue 1 L in
    let L := lua_xmove NL 1 L in
    CReturn 1 L.

(** The C functions by their pointers.  Of the standard library the model
    runs [error], [coroutine.yield] and [coroutine.create]; at a call of
    any other library function it stops. *)
Definition call_C (f : lua_CFunction) (L : lua_State) : model_limit + c_result :=
  match f with
  | c_lua_error_handler => inr (lua_error_handler L)
  | c_mes => inr (lua_bridge.mes L)
  | c_next => inr (lua_bridge.next L)
  | c_close => inr (lua_bridge.close L)
  | c_lib name =>
      if String.eqb name "error" then inr (luaB_error L)
      else if String.eqb name "coroutine.yield" then inr (luaB_yield L)
      else if String.eqb name "coroutine.create" then inr (luaB_cocreate L)
      else inl (LibraryCall name)
  end.

(** Expressions change nothing, but the index of a value that cannot be
    indexed raises an error: [inl] is the value, [inr] the error object. *)
Fixpoint eval (gt : Table) (e : expr) : TValue + TValue :=
  match e with
  | ENil => inl VNil
  | ETrue => inl (VBoolean true)
  | EFalse => inl (VBoolean false)
  | EInt n => inl (VInteger n)
  | EStr s => inl (VString s)
  | EGlobal x => inl (luaH_getstr gt x)
  | EIndex e' k =>
      match eval gt e' with
      | inl t => luaV_get t k
      | inr err => inr err
      end
  | ETable fields =>
      (fix fill (fs : list (string * expr)) (h : Table) : TValue + TValue :=
         match fs with
         | [] => inl (VTable h)
         | (k, e') :: fs' =>
             match eval gt e' with
             | inl v => fill fs' (luaH_set h k v)
             | inr err => inr err
             end
         end) fields []
  | EFunction body => inl (VLClosure body)
  end.

(** a list of expressions, from left to right *)
Fixpoint evals (gt : Table) (es : list expr) : list TValue + TValue :=
  match es with
  | [] => inl []
  | e :: es' =>
      match eval gt e with
      | inl v => match evals gt es' with
                 | inl vs => inl (v :: vs)
                 | inr err => inr err
                 end
      | inr err => inr err
      end
  end.

Definition lastn {A} (n : nat) (l : list A) : list A :=
  skipn (List.length l - n) l.

(** [luaD_precall]: a Lua function gets a new frame, a C function runs at
    once on a stack that holds its arguments. *)
Inductive precall : Type :=
| NewFrame (p : block)
| CDone (rets : list TValue) (g : global_State)
| CYielded (vals : list TValue) (g : global_State)
| CFailed (e : TValue) (g : global_State)
| CLimit (why : model_limit).

Definition luaD_precall (yieldable : bool) (f : TValue) (argv : list TValue)
    (g : global_State) : precall :=
  match f with
  | VLClosure p => NewFrame p
  | VCFunction cf =>
      match call_C cf {| stack := argv; l_yieldable := yieldable; l_G := g |} with
      | inl why => CLimit why
      | inr (CReturn n L') => CDone (lastn (Z.to_nat n) (stack L')) (l_G L')
      | inr (CYield n L') => CYielded (lastn (Z.to_nat n) (stack L')) (l_G L')
      | inr (CThrow e L') => CFailed e (l_G L')
      end
  | _ => CFailed (luaG_typeerror f "call") g
  end.

Inductive execution : Type :=
| Finished (rets : list TValue) (g : global_State)
| Yielded (vals : list TValue) (ci : list block) (g : global_State)
| Errored (e : TValue) (g : global_State)
| Stopped (why : model_limit).

(** [luaV_execute]: the frames [ci] hold the statements still to run,
    innermost call first.  One unit of fuel per statement; the values a
    call statement gets back are dropped.  The function of a call is
    evaluated before its arguments. *)
Fixpoint luaV_execute (fuel : nat) (yieldable : bool) (ci : list block)
    (g : global_State) : execution :=
  match fuel with
  | O => Stopped FuelExhausted
  | S fuel' =>
      match ci with
      | [] => Finished [] g
      | [] :: [] => Finished [] g
      | [] :: ci' => luaV_execute fuel' yieldable ci' g
      | (SReturn es :: _) :: ci' =>
          match evals (l_gt g) es with
          | inr err => Errored err g
          | inl vs =>
              match ci' with
              | [] => Finished vs g
              | _ => luaV_execute fuel' yieldable ci' g
              end
          end
      | (SAssign x e :: rest) :: ci' =>
          match eval (l_gt g) e with
          | inr err => Errored err g
          | inl v =>
              luaV_execute fuel' yieldable (rest :: ci')
                (set_gt g (luaH_set (l_gt g) x v))
          end
      | (SCall f args :: rest) :: ci' =>
          match eval (l_gt g) f with
          | inr err => Errored err g
          | inl fv =>
              match evals (l_gt g) args with
              | inr err => Errored err g
              | inl argv =>
                  match luaD_precall yieldable fv argv g with
                  | NewFrame p => luaV_execute fuel' yieldable (p :: rest :: ci') g
                  | CDone _ g' => luaV_execute fuel' yieldable (rest :: ci') g'
                  | CYielded vs g' => Yielded vs (rest :: ci') g'
                  | CFailed e g' => Errored e g'
                  | CLimit why => Stopped why
                  end
              end
          end
      end
  end.

(** [luaD_call]: a value called from C with its arguments. *)
Definition luaD_call (fuel : nat) (yieldable : bool) (f : TValue) (argv : list TValue)
    (g : global_State) : execution :=
  match luaD_precall yieldable f argv g with
  | NewFrame p => luaV_execute fuel yieldable [p] g
  | CDone rets g' => Finished rets g'
  | CYielded vs g' => Yielded vs [] g'
  | CFailed e g' => Errored e g'
  | CLimit why => Stopped why
  end.

(** the results of a call adjusted to [nresults]; -1 is LUA_MULTRET *)
Definition adjust_results (nresults : Z) (rets : list TValue) : list TValue :=
  if nresults <? 0 then rets else resize (Z.to_nat nresults) rets.

(** [lua_pcall]: the function sits below its [nargs] arguments; on an
    error the message handler at index [msgh] (0 for none) turns the error
    object into the value left on the stack.  An error inside the handler
    gives LUA_ERRERR. *)
Definition lua_pcall (fuel : nat) (nargs nresults msgh : Z) (L : lua_State)
  : outcome (lua_status * lua_State) :=
  let k := Z.to_nat (lua_gettop L - nargs - 1) in
  let base := firstn k (stack L) in
  let argv := skipn (S k) (stack L) in
  let f := match nth_error (stack L) k with Some v => v | None => VNil end in
  match luaD_call fuel false f argv (l_G L) with
  | Finished rets g' =>
      Returns _ (LUA_OK, set_stack (set_G L g') (base ++ adjust_results nresults rets))
  | Errored e g' =>
      if msgh =? 0 then Returns _ (LUA_ERRRUN, set_stack (set_G L g') (base ++ [e]))
      else
        let h := match index2value L msgh with Some v => v | None => VNil end in
        match luaD_call fuel false h [e] g' with
        | Finished rets g'' =>
            Returns _ (LUA_ERRRUN, set_stack (set_G L g'') (base ++ resize 1 rets))
        | Stopped why => Unfinished _ why
        | Errored _ g'' | Yielded _ _ g'' =>
            Returns _ (LUA_ERRERR,
                       set_stack (set_G L g'') (base ++ [VString "error in error handling"]))
        end
  | Yielded _ _ g' =>
      Returns _ (LUA_ERRRUN, set_stack (set_G L g')
                   (base ++ [VString "attempt to yield across a C-call boundary"]))
  | Stopped why => Unfinished _ why
  end.

Definition put_thread (g : global_State) (co : nat) (th : lua_Thread) : global_State :=
  set_threads g (list_update (l_threads g) co th).

(** [resume_error]: the message replaces the arguments, the status of the
    coroutine stays as it is. *)
Definition resume_error (g : global_State) (co : nat) (th : lua_Thread) (nargs : Z)
    (msg : string) : outcome (lua_status * global_State) :=
  let kept := firstn (List.length (th_stack th) - Z.to_nat nargs) (th_stack th) in
  Returns _ (LUA_ERRRUN,
             put_thread g co {| th_stack := kept ++ [VString msg]; th_ci := th_ci th;
                                th_status := th_status th |}).

(** how a run of the coroutine [co] ends; [base] is what lies below it on
    the stack of the coroutine.  A suspended coroutine shows the yielded
    values on its stack: none when it was [next] that yielded. *)
Definition resume_end (co : nat) (base : list TValue) (x : execution)
  : outcome (lua_status * global_State) :=
  match x with
  | Finished rets g' =>
      Returns _ (LUA_OK, put_thread g' co
                   {| th_stack := base ++ rets; th_ci := []; th_status := LUA_OK |})
  | Yielded vs ci g' =>
      Returns _ (LUA_YIELD, put_thread g' co
                   {| th_stack := vs; th_ci := ci; th_status := LUA_YIELD |})
  | Errored e g' =>
      Returns _ (LUA_ERRRUN, put_thread g' co
                   {| th_stack := base ++ [e]; th_ci := []; th_status := LUA_ERRRUN |})
  | Stopped why => Unfinished _ why
  end.

(** [lua_resume(co, from, nargs, &nres)]: starts the function that sits
    below the arguments on the stack of a fresh coroutine, or continues a
    suspended one; the call is protected. *)
Definition lua_resume (fuel : nat) (co : option nat) (nargs : Z) (g : global_State)
  : outcome (lua_status * global_State) :=
  match co with
  | None => Aborts _ (NullPointer "lua_resume")
  | Some id =>
      match nth_error (l_threads g) id with
      | None => Aborts _ (NullPointer "lua_resume")
      | Some th =>
          match th_status th with
          | LUA_OK =>
              match th_ci th with
              | _ :: _ => resume_error g id th nargs "cannot resume non-suspended coroutine"
              | [] =>
                  let n := List.length (th_stack th) in
                  if Nat.leb n (Z.to_nat nargs) then
                    resume_error g id th nargs "cannot resume dead coroutine"
                  else
                    let k := (n - Z.to_nat nargs - 1)%nat in
                    let f := match nth_error (th_stack th) k with
                             | Some v => v | None => VNil end in
                    resume_end id (firstn k (th_stack th))
                      (luaD_call fuel true f (skipn (S k) (th_stack th)) g)
              end
          | LUA_YIELD => resume_end id [] (luaV_execute fuel true (th_ci th) g)
          | _ => resume_error g id th nargs "cannot resume dead coroutine"
          end
      end
  end.

(** [lua_status(co)] *)
Definition lua_status_of (g : global_State) (co : nat) : option lua_status :=
  match nth_error (l_threads g) co with
  | Some th => Some (th_status th)
  | None => None
  end.

End Machine.

Arguments Returns {core A} a.
Arguments Aborts {core A} why.
Arguments Unfinished {core A} why.

Section Outcome.
Context {core : LuaCore}.

Definition obind {A B} (m : outcome A) (k : A -> outcome B) : outcome B :=
  match m with
  | Returns a => k a
  | Aborts why => Aborts why
  | Unfinished why => Unfinished why
  end.

End Outcome.

(** ** lua_interpreter.cpp, the anonymous namespace: reader and writer *)

Section ReaderWriter.
Context {core : LuaCore}.

Record lua_reader_state : Type := {
  chunk : string;
  read : bool
}.

(** [lua_reader]: the whole chunk at the first call, the end afterwards. *)
Definition lua_reader : lua_Reader lua_reader_state :=
  fun L state =>
    if read state then (None, state)
    else (Some (chunk state), {| chunk := chunk state; read := true |}).

Record lua_writer_state : Type := {
  stream : string;
  total_size : Z
}.

(** [lua_writer]: appends the piece to the stream and counts its bytes. *)
Definition lua_writer : lua_Writer lua_writer_state :=
  fun L buffer state =>
    (0, {| stream := stream state ++ buffer;
           total_size := total_size state + Z.of_nat (String.length buffer) |}).

(** [bytes.resize(n); ss.read(bytes.data(), n)]: the first [n] bytes of
    the stream, zero bytes where the stream is shorter. *)
Fixpoint stream_read (n : nat) (ss : string) : string :=
  match n with
  | O => EmptyString
  | S n' => match ss with
            | EmptyString => String zero (stream_read n' EmptyString)
            | String c ss' => String c (stream_read n' ss')
            end
  end.

End ReaderWriter.

(** ** lua_interpreter.hpp and lua_interpreter.cpp: namespace lua *)

Module lua.

(** Compiled Lua code in bytecode form. *)
Record bytecode : Type := {
  bytes : string
}.

(** Relevant info about a script; [code] is [nullptr] or the bytecode. *)
Record script_metadata : Type := {
  path : string;
  map : string;
  x : Z;
  y : Z;
  facing : Z;
  name : string;
  sprite : Z;
  code : option bytecode
}.

(** The files of the host: the text of a path that can be read. *)
Definition filesystem : Type := string -> option string.

(** [file.open(path); ss << file.rdbuf(); ss.str()]: a file that cannot be
    opened leaves the string stream empty. *)
Definition read_file (fs : filesystem) (path : string) : string :=
  match fs path with
  | Some text => text
  | None => EmptyString
  end.

Module interpreter.
Section Interpreter.
Context {core : LuaCore}.

Record impl : Type := {
  lua : lua_State
}.

(** the constructor [impl()] *)
Definition new_impl (srv : map_server) : impl :=
  {| lua := luaL_openlibs (luaL_newstate srv) |}.

Definition fetch_number (name : string) : API Z :=
  lua_getfield (-1) name ;;;
  isnumber <- gets (fun L => lua_isnumber L (-1)) ;;
  if negb isnumber then ret 0
  else
    number <- gets (fun L => cast_int (lua_tointeger L (-1))) ;;
    modify (lua_pop 1) ;;;
    ret number.

Definition fetch_string (name : string) : API string :=
  lua_getfield (-1) name ;;;
  isstring <- gets (fun L => lua_isstring L (-1)) ;;
  if negb isstring then ret EmptyString
  else
    str <- (fun L => let (s, L') := lua_tostring (-1) L in Ok s L') ;;
    modify (lua_pop 1) ;;;
    ret (match str with
         | Some s => s
         | None => EmptyString (* not reached: [lua_isstring] held *)
         end).

Definition fetch_metadata : API (option script_metadata) :=
  istable <- gets (fun L => lua_istable L (-1)) ;;
  if negb istable then ret None
  else
    m_x <- fetch_number "x" ;;
    m_y <- fetch_number "y" ;;
    m_facing <- fetch_number "facing" ;;
    m_sprite <- fetch_number "sprite" ;;
    m_map <- fetch_string "map" ;;
    m_name <- fetch_string "name" ;;
    modify (lua_settop 0) ;;;
    (* search for the script function *)
    modify (lua_getglobal "script") ;;;
    isfunction <- gets (fun L => lua_isfunction L (-1)) ;;
    if negb isfunction then
      ret (Some {| path := EmptyString; map := m_map; x := m_x; y := m_y;
                   facing := m_facing; name := m_name; sprite := m_sprite;
                   code := None |})
    else
      (* dump into bytecode *)
      let strip_debug_info := 1 in
      dumped <- gets (lua_dump lua_writer {| stream := EmptyString; total_size := 0 |}
                               strip_debug_info) ;;
      let writer_state := snd dumped in
      (* store bytecode *)
      let bc := {| bytes := stream_read (Z.to_nat (total_size writer_state))
                                        (stream writer_state) |} in
      ret (Some {| path := EmptyString; map := m_map; x := m_x; y := m_y;
                   facing := m_facing; name := m_name; sprite := m_sprite;
                   code := Some bc |}).

(** [error_message = lua_tostring(L, -1)]: a [std::string] assigned from
    a null pointer is undefined behaviour. *)
Definition assign_tostring (L : lua_State) : outcome (string * lua_State) :=
  match lua_tostring (-1) L with
  | (Some m, L') => Returns (m, L')
  | (None, _) => Aborts (NullPointer "std::string")
  end.

(** The load and the protected call of [extract_metadata]: the error
    message that the switch leaves, and the state. *)
Definition load_and_call (fuel : nat) (script path : string) (L : lua_State)
  : outcome (string * lua_State) :=
  let reader_state := {| chunk := script; read := false |} in
  match lua_load fuel lua_reader reader_state ("=" ++ path) (Some "t") L with
  | None => Unfinished FuelExhausted
  | Some (LUA_OK, L1) =>
      (* call the error handler *)
      obind (lua_pcall fuel 0 1 1 L1) (fun r =>
        let (status, L2) := r in
        if negb (lua_status_eqb status LUA_OK) then
          if negb (lua_isnil L2 (-1)) then assign_tostring L2
          else Returns (EmptyString, L2)
        else Returns (EmptyString, L2))
  | Some (LUA_ERRSYNTAX, L1) => assign_tostring L1
  | Some (lua_load_result, L1) =>
      Returns ("Unexpected lua_load_result: "
                 ++ lua_Integer2str (status_code lua_load_result), L1)
  end.

(** The end of [extract_metadata]: with an error message there is no
    metadata; without one [fetch_metadata] runs, outside any protected
    call, so that a Lua error raised there ends the process. *)
Definition validate_and_fetch (r : string * lua_State)
  : outcome (option script_metadata * impl) :=
  let (error_message, L) := r in
  (* validate the script *)
  if negb (String.eqb error_message EmptyString) then Returns (None, {| lua := L |})
  else
    (* fetch metadata *)
    match fetch_metadata L with
    | Ok md L' => Returns (md, {| lua := L' |})
    | Throw e _ => Aborts (Panic e)
    end.

(** [interpreter::extract_metadata]: [None] is [nullptr]. *)
Definition extract_metadata (fuel : nat) (fs : filesystem) (path : string) (self : impl)
  : outcome (option script_metadata * impl) :=
  let script := read_file fs path in
  (* clean the stack *)
  let L := lua_settop 0 (lua self) in
  (* push the error handler into the stack *)
  let L := lua_pushcfunction c_lua_error_handler L in
  obind (load_and_call fuel script path L) validate_and_fetch.

(** What the file does in the VM of the interpreter: the message of the
    load error, or how the run of the top-level chunk ends. *)
Definition chunk_result (fuel : nat) (fs : filesystem) (path : string) (self : impl)
  : string + execution :=
  match f_parser (read_file fs path) ("=" ++ path) (Some "t") with
  | inl msg => inl msg
  | inr p => inr (luaD_call fuel false (VLClosure p) [] (l_G (lua self)))
  end.

End Interpreter.
End interpreter.

Module executor.
Section Executor.
Context {core : LuaCore}.

Record impl : Type := {
  lua : lua_State;
  thread : option nat;
  sd : Z;
  nd : Z
}.

Definition set_lua (self : impl) (L : lua_State) : impl :=
  {| lua := L; thread := thread self; sd := sd self; nd := nd self |}.

(** registers the session and npc data, and the executor itself, as
    globals of the state; [this] is the address of the executor *)
Definition register_globals (this : Z) (self : impl) : impl :=
  let L := lua_pushlightuserdata this (lua self) in
  let L := lua_setglobal "__executor__" L in
  let L := lua_pushlightuserdata (sd self) L in
  let L := lua_setglobal lua_helpers.SD_LUA_VARIABLE L in
  let L := lua_pushlightuserdata (nd self) L in
  let L := lua_setglobal lua_helpers.ND_LUA_VARIABLE L in
  set_lua self L.

(** registers the native C functions into the main state *)
Definition register_functions (self : impl) : impl :=
  let L := lua_register "mes" c_mes (lua self) in
  let L := lua_register "next" c_next L in
  let L := lua_register "close" c_close L in
  set_lua self L.

(** the constructor [impl(sd, nd)] *)
Definition new_impl (this sd nd : Z) (srv : map_server) : impl :=
  let self := {| lua := luaL_openlibs (luaL_newstate srv); thread := None;
                 sd := sd; nd := nd |} in
  register_globals this (register_functions self).

(** [executor::resume]: the status that [lua_resume] returns is dropped. *)
Definition resume (fuel : nat) (self : impl) : outcome impl :=
  obind (lua_resume fuel (thread self) 0 (l_G (lua self))) (fun r =>
    Returns (set_lua self (set_G (lua self) (snd r)))).

(** [executor::run] *)
Definition run (fuel : nat) (code : string) (self : impl) : outcome (bool * impl) :=
  (* load bytecode into the lua state *)
  let (_, L) := luaL_loadbuffer code "b" (lua self) in
  (* create a lua coroutine so it can be paused and resumed *)
  let (th, L) := lua_newthread L in
  (* push the main function into the stack; it is at index -2 *)
  let L := lua_pushvalue (-2) L in
  (* move the function into the new thread *)
  let L := lua_xmove th 1 L in
  obind (resume fuel {| lua := L; thread := Some th; sd := sd self; nd := nd self |})
        (fun self' => Returns (true, self')).

End Executor.
End executor.

End lua.

(** ** A reference core for concrete runs

    The statements of the examples are checked on a small core that reads
    a subset of the Lua syntax (global assignments, calls of globals and of
    their fields, function definitions without parameters, [return], table constructors
    with name keys, integer and string constants), has no floats, and
    dumps a function as a fixed header followed by the text of its body. *)

Module MiniLua.

Inductive sym : Type :=
| LParen | RParen | LBrace | RBrace | Comma | Semi | Assign | Minus | Dot.

Inductive token : Type :=
| TName (w : string)
| TInt (n : Z)
| TStr (s : string)
| TSym (s : sym).

Definition in_range (lo hi : nat) (c : ascii) : bool :=
  Nat.leb lo (nat_of_ascii c) && Nat.leb (nat_of_ascii c) hi.

Definition is_digit (c : ascii) : bool := in_range 48 57 c.

Definition is_alpha (c : ascii) : bool :=
  in_range 97 122 c || in_range 65 90 c || Nat.eqb (nat_of_ascii c) 95.

Definition is_alnum (c : ascii) : bool := is_alpha c || is_digit c.

Definition is_space (c : ascii) : bool :=
  Nat.eqb (nat_of_ascii c) 32 || in_range 9 13 c.

Definition is_quote (c : ascii) : bool :=
  Nat.eqb (nat_of_ascii c) 39 || Nat.eqb (nat_of_ascii c) 34.

Definition sym_of (c : ascii) : option sym :=
  match nat_of_ascii c with
  | 40%nat => Some LParen
  | 41%nat => Some RParen
  | 123%nat => Some LBrace
  | 125%nat => Some RBrace
  | 44%nat => Some Comma
  | 59%nat => Some Semi
  | 61%nat => Some Assign
  | 45%nat => Some Minus
  | 46%nat => Some Dot
  | _ => None
  end.

Fixpoint span (p : ascii -> bool) (s : string) : string * string :=
  match s with
  | EmptyString => (EmptyString, EmptyString)
  | String c s' =>
      if p c then let (a, b) := span p s' in (String c a, b)
      else (EmptyString, s)
  end.

Fixpoint digits_value (s : string) (acc : Z) : Z :=
  match s with
  | EmptyString => acc
  | String c s' => digits_value s' (10 * acc + Z.of_nat (nat_of_ascii c - 48))
  end.

Fixpoint lex (fuel : nat) (s : string) : option (list token) :=
  match fuel with
  | O => None
  | S fuel' =>
      match s with
      | EmptyString => Some []
      | String c s' =>
          if is_space c then lex fuel' s'
          else if is_digit c then
            let (d, r) := span is_digit s in
            option_map (cons (TInt (digits_value d 0))) (lex fuel' r)
          else if is_alpha c then
            let (w, r) := span is_alnum s in
            option_map (cons (TName w)) (lex fuel' r)
          else if is_quote c then
            let (body, r) := span (fun d => negb (Ascii.eqb d c)) s' in
            match r with
            | String _ r' => option_map (cons (TStr body)) (lex fuel' r')
            | EmptyString => None
            end
          else
            match sym_of c with
            | Some y => option_map (cons (TSym y)) (lex fuel' s')
            | None => None
            end
      end
  end.

Definition is_keyword (w : string) : bool :=
  existsb (String.eqb w)
    ["and"; "break"; "do"; "else"; "elseif"; "end"; "false"; "for"; "function";
     "goto"; "if"; "in"; "local"; "nil"; "not"; "or"; "repeat"; "return"; "then";
     "true"; "until"; "while"].

Definition at_block_end (ts : list token) : bool :=
  match ts with
  | [] => true
  | TName w :: _ => String.eqb w "end"
  | _ => false
  end.

Definition skip_semi (ts : list token) : list token :=
  match ts with
  | TSym Semi :: r => r
  | _ => ts
  end.

(** the token [end] that closes a function body *)
Definition expect_end {A} (a : A) (ts : list token) : option (A * list token) :=
  match ts with
  | TName w :: r => if String.eqb w "end" then Some (a, r) else None
  | _ => None
  end.

(** the fields [.name] that follow a name *)
Fixpoint parse_suffix (e : expr) (ts : list token) : expr * list token :=
  match ts with
  | TSym Dot :: TName k :: r =>
      if is_keyword k then (e, ts) else parse_suffix (EIndex e k) r
  | _ => (e, ts)
  end.

Fixpoint parse_exp (fuel : nat) (ts : list token) {struct fuel}
  : option (expr * list token) :=
  match fuel with
  | O => None
  | S fuel' =>
      match ts with
      | TInt n :: r => Some (EInt n, r)
      | TSym Minus :: TInt n :: r => Some (EInt (- n), r)
      | TStr s :: r => Some (EStr s, r)
      | TSym LBrace :: r =>
          match parse_fields fuel' r with
          | Some (fs, r') => Some (ETable fs, r')
          | None => None
          end
      | TName w :: r =>
          if String.eqb w "nil" then Some (ENil, r)
          else if String.eqb w "true" then Some (ETrue, r)
          else if String.eqb w "false" then Some (EFalse, r)
          else if String.eqb w "function" then
            match r with
            | TSym LParen :: TSym RParen :: r' =>
                match parse_block fuel' r' with
                | Some (b, r'') => expect_end (EFunction b) r''
                | None => None
                end
            | _ => None
            end
          else if is_keyword w then None
          else Some (parse_suffix (EGlobal w) r)
      | _ => None
      end
  end
with parse_fields (fuel : nat) (ts : list token) {struct fuel}
  : option (list (string * expr) * list token) :=
  match fuel with
  | O => None
  | S fuel' =>
      match ts with
      | TSym RBrace :: r => Some ([], r)
      | TName k :: TSym Assign :: r =>
          if is_keyword k then None
          else
            match parse_exp fuel' r with
            | Some (e, TSym RBrace :: r') => Some ([(k, e)], r')
            | Some (e, TSym Comma :: r') | Some (e, TSym Semi :: r') =>
                match parse_fields fuel' r' with
                | Some (fs, r'') => Some ((k, e) :: fs, r'')
                | None => None
                end
            | _ => None
            end
      | _ => None
      end
  end
with parse_explist (fuel : nat) (ts : list token) {struct fuel}
  : option (list expr * list token) :=
  match fuel with
  | O => None
  | S fuel' =>
      match parse_exp fuel' ts with
      | Some (e, TSym Comma :: r) =>
          match parse_explist fuel' r with
          | Some (es, r') => Some (e :: es, r')
          | None => None
          end
      | Some (e, r) => Some ([e], r)
      | None => None
      end
  end
with parse_block (fuel : nat) (ts : list token) {struct fuel}
  : option (block * list token) :=
  match fuel with
  | O => None
  | S fuel' =>
      let more (s : stmt) (r : list token) :=
        match parse_block fuel' r with
        | Some (b, r') => Some (s :: b, r')
        | None => None
        end in
      match ts with
      | [] => Some ([], [])
      | TSym Semi :: r => parse_block fuel' r
      | TName w :: r =>
          if String.eqb w "end" then Some ([], ts)
          else if String.eqb w "return" then
            if at_block_end (skip_semi r) then Some ([SReturn []], skip_semi r)
            else
              match parse_explist fuel' r with
              | Some (es, r') =>
                  if at_block_end (skip_semi r') then Some ([SReturn es], skip_semi r')
                  else None
              | None => None
              end
          else if String.eqb w "function" then
            match r with
            | TName f :: TSym LParen :: TSym RParen :: r' =>
                if is_keyword f then None
                else
                  match parse_block fuel' r' with
                  | Some (b, r'') =>
                      match expect_end tt r'' with
                      | Some (_, r3) => more (SAssign f (EFunction b)) r3
                      | None => None
                      end
                  | None => None
                  end
            | _ => None
            end
          else if is_keyword w then None
          else
            match r with
            | TSym Assign :: r' =>
                match parse_exp fuel' r' with
                | Some (e, r'') => more (SAssign w e) r''
                | None => None
                end
            | _ =>
                let (f, r1) := parse_suffix (EGlobal w) r in
                match r1 with
                | TSym LParen :: TSym RParen :: r' => more (SCall f []) r'
                | TSym LParen :: r' =>
                    match parse_explist fuel' r' with
                    | Some (es, TSym RParen :: r'') => more (SCall f es) r''
                    | _ => None
                    end
                | _ => None
                end
            end
      | _ => None
      end
  end.

(** [luaO_chunkid] of a name that starts with "=": the rest of the name *)
Definition chunkid (chunkname : string) : string :=
  match chunkname with
  | String _ rest => rest
  | EmptyString => "?"
  end.

Definition parse (text chunkname : string) : string + block :=
  match lex (S (String.length text)) text with
  | Some ts =>
      match parse_block (2 * List.length ts + 2) ts with
      | Some (b, []) => inr b
      | _ => inl (chunkid chunkname ++ ": syntax error")
      end
  | None => inl (chunkid chunkname ++ ": unexpected symbol")
  end.

Definition join (sep : string) (l : list string) : string :=
  match l with
  | [] => EmptyString
  | a :: l' => fold_left (fun acc s => acc ++ sep ++ s) l' a
  end.

Fixpoint print_exp (e : expr) : string :=
  match e with
  | ENil => "nil"
  | ETrue => "true"
  | EFalse => "false"
  | EInt n => lua_Integer2str n
  | EStr s => "'" ++ s ++ "'"
  | EGlobal x => x
  | EIndex e' k => print_exp e' ++ "." ++ k
  | ETable fields =>
      "{" ++ join ", " (List.map (fun kv => fst kv ++ " = " ++ print_exp (snd kv)) fields)
          ++ "}"
  | EFunction body => "function() " ++ join " " (List.map print_stmt body) ++ " end"
  end
with print_stmt (s : stmt) : string :=
  match s with
  | SAssign x e => x ++ " = " ++ print_exp e
  | SCall f args => print_exp f ++ "(" ++ join ", " (List.map print_exp args) ++ ")"
  | SReturn es => "return " ++ join ", " (List.map print_exp es)
  end.

(** the header of a dumped function: the signature and the version *)
Definition header : string :=
  String LUA_SIGNATURE0 ("Lua" ++ String (ascii_of_nat 84) EmptyString).

Definition dump (p : block) (strip : bool) : list string :=
  [header; join " " (List.map print_stmt p)].

Definition undump (chunk chunkname : string) : string + block :=
  if String.prefix header chunk then
    parse (substring (String.length header) (String.length chunk) chunk) chunkname
  else inl (chunkid chunkname ++ ": bad binary format (truncated chunk)").

Fixpoint all_digits (s : string) : bool :=
  match s with
  | EmptyString => true
  | String c s' => is_digit c && all_digits s'
  end.

(** decimal integers are the numeric strings of this core *)
Definition str2int (s : string) : option (Z + Empty_set) :=
  match s with
  | EmptyString => None
  | String c s' =>
      if Ascii.eqb c "-"%char then
        match s' with
        | EmptyString => None
        | _ => if all_digits s' then Some (inl (- digits_value s' 0)) else None
        end
      else if all_digits s then Some (inl (digits_value s 0)) else None
  end.

Definition core : LuaCore :=
  {| lua_Number := Empty_set;
     luaO_str2num := str2int;
     luaV_flttointns := fun n => match n with end;
     lua_Number2str := fun n => match n with end;
     luaY_parser := parse;
     luaU_dump := dump;
     luaU_undump := undump |}.

End MiniLua.

(** * Properties *)

(** ** The API on the top of the stack *)

Section StackFacts.
Context {core : LuaCore}.

Lemma append_empty_r (s : string) : (s ++ "")%string = s.
Proof. induction s as [|c s IH]; simpl; [reflexivity | now rewrite IH]. Qed.

Lemma resize_app_one (s : list TValue) (v : TValue) :
  resize (List.length s) (s ++ [v]) = s.
Proof. induction s as [|a s IH]; simpl; [reflexivity | now rewrite IH]. Qed.

Lemma index2value_top (L : lua_State) (base : list TValue) (v : TValue) :
  stack L = (base ++ [v])%list -> index2value L (-1) = Some v.
Proof.
  intros E. unfold index2value, stack_slot. rewrite E, length_app. simpl.
  replace (0 <=? Z.of_nat (List.length base + 1) + -1) with true
    by (symmetry; apply Z.leb_le; lia).
  simpl.
  replace (Z.to_nat (Z.of_nat (List.length base + 1) + -1)) with (List.length base) by lia.
  rewrite nth_error_app2 by lia. now rewrite Nat.sub_diag.
Qed.

Lemma stack_slot_top (L : lua_State) (base : list TValue) (v : TValue) :
  stack L = (base ++ [v])%list -> stack_slot L (-1) = Some (List.length base).
Proof.
  intros E. unfold stack_slot. rewrite E, length_app. simpl.
  replace (0 <=? Z.of_nat (List.length base + 1) + -1) with true
    by (symmetry; apply Z.leb_le; lia).
  simpl. f_equal. lia.
Qed.

Lemma index2value_push (L : lua_State) (v : TValue) :
  index2value (api_push v L) (-1) = Some v.
Proof. now apply index2value_top with (base := stack L). Qed.

Lemma lua_pop_push (L : lua_State) (v : TValue) : lua_pop 1 (api_push v L) = L.
Proof.
  unfold lua_pop, lua_settop, lua_gettop, api_push. simpl.
  rewrite length_app. simpl.
  replace (Z.to_nat (Z.of_nat (List.length (stack L) + 1) + -2 + 1))
    with (List.length (stack L)) by lia.
  rewrite resize_app_one. now destruct L.
Qed.

Lemma list_update_last (s : list TValue) (v w : TValue) :
  list_update (s ++ [v]) (List.length s) w = (s ++ [w])%list.
Proof. induction s as [|a s IH]; simpl; [reflexivity | now rewrite IH]. Qed.

(** Where [lua_isstring] holds, [lua_tostring] gives a string. *)
Lemma v_isstring_tostring (v : TValue) :
  v_isstring v = true -> exists s, luaO_tostring v = Some s.
Proof. destruct v; simpl; try discriminate; eauto. Qed.

Lemma lua_settop_zero (L : lua_State) : lua_settop 0 L = set_stack L [].
Proof. reflexivity. Qed.

End StackFacts.

(** ** Reading the chunk *)

Section LoadFacts.
Context {core : LuaCore}.

(** Asked twice, [lua_reader] has delivered the whole chunk. *)
Lemma luaZ_read_lua_reader (n : nat) (L : lua_State) (s : string) :
  luaZ_read (S (S n)) L lua_reader {| chunk := s; read := false |} = Some s.
Proof.
  destruct s as [|c s]; [reflexivity|].
  cbn. now rewrite append_empty_r.
Qed.

Lemma lua_load_lua_reader (n : nat) (s chunkname : string) (mode : option string)
    (L : lua_State) :
  lua_load (S (S n)) lua_reader {| chunk := s; read := false |} chunkname mode L
  = Some (load_chunk s chunkname mode L).
Proof. unfold lua_load. now rewrite luaZ_read_lua_reader. Qed.

End LoadFacts.

(** ** Fetching fields *)

Section FetchFacts.
Context {core : LuaCore}.

Lemma lua_getfield_table (L : lua_State) (base : list TValue) (h : Table) (k : string) :
  stack L = (base ++ [VTable h])%list ->
  lua_getfield (-1) k L = Ok tt (api_push (luaH_getstr h k) L).
Proof.
  intros E. unfold lua_getfield. now rewrite (index2value_top L base (VTable h) E).
Qed.

(** On a table that holds a number under the name, [fetch_number] gives
    the number and leaves the stack as it was. *)
Lemma fetch_number_set (L : lua_State) (base : list TValue) (h : Table) (k : string) :
  stack L = (base ++ [VTable h])%list ->
  v_isnumber (luaH_getstr h k) = true ->
  lua.interpreter.fetch_number k L = Ok (cast_int (v_tointeger (luaH_getstr h k))) L.
Proof.
  intros E N. unfold lua.interpreter.fetch_number, bind, gets, modify, ret.
  rewrite (lua_getfield_table L base h k E).
  unfold lua_isnumber, lua_tointeger. rewrite index2value_push, N.
  cbv beta iota delta [negb]. now rewrite index2value_push, lua_pop_push.
Qed.

(** On a table that holds anything else under the name, nil when the field
    is not set, the result is 0 and the value stays on the stack. *)
Lemma fetch_number_unset (L : lua_State) (base : list TValue) (h : Table) (k : string) :
  stack L = (base ++ [VTable h])%list ->
  v_isnumber (luaH_getstr h k) = false ->
  lua.interpreter.fetch_number k L = Ok 0 (api_push (luaH_getstr h k) L).
Proof.
  intros E N. unfold lua.interpreter.fetch_number, bind, gets, modify, ret.
  rewrite (lua_getfield_table L base h k E).
  unfold lua_isnumber. now rewrite index2value_push, N.
Qed.

Definition v_tostring (v : TValue) : string :=
  match luaO_tostring v with Some s => s | None => EmptyString end.

Lemma fetch_string_set (L : lua_State) (base : list TValue) (h : Table) (k : string) :
  stack L = (base ++ [VTable h])%list ->
  v_isstring (luaH_getstr h k) = true ->
  lua.interpreter.fetch_string k L = Ok (v_tostring (luaH_getstr h k)) L.
Proof.
  intros E N. unfold lua.interpreter.fetch_string, bind, gets, modify, ret.
  rewrite (lua_getfield_table L base h k E).
  unfold lua_isstring. rewrite index2value_push, N.
  cbv beta iota delta [negb]. unfold lua_tostring.
  rewrite (stack_slot_top (api_push (luaH_getstr h k) L) (stack L) (luaH_getstr h k) eq_refl).
  rewrite index2value_push.
  destruct (v_isstring_tostring _ N) as [s Hs]. unfold v_tostring. rewrite Hs.
  unfold api_push at 2. unfold set_stack at 2. unfold stack at 1.
  rewrite list_update_last.
  change (set_stack (api_push (luaH_getstr h k) L) (stack L ++ [VString s]))
    with (api_push (VString s) L).
  now rewrite lua_pop_push.
Qed.

Lemma fetch_string_unset (L : lua_State) (base : list TValue) (h : Table) (k : string) :
  stack L = (base ++ [VTable h])%list ->
  v_isstring (luaH_getstr h k) = false ->
  lua.interpreter.fetch_string k L = Ok EmptyString (api_push (luaH_getstr h k) L).
Proof.
  intros E N. unfold lua.interpreter.fetch_string, bind, gets, modify, ret.
  rewrite (lua_getfield_table L base h k E).
  unfold lua_isstring. now rewrite index2value_push, N.
Qed.

(** Without a table on the top of the stack there is no metadata. *)
Lemma fetch_metadata_no_table (L : lua_State) :
  lua_istable L (-1) = false -> lua.interpreter.fetch_metadata L = Ok None L.
Proof.
  intros E. unfold lua.interpreter.fetch_metadata, bind, gets. now rewrite E.
Qed.

Lemma fetch_metadata_some_table (L L' : lua_State) (md : lua.script_metadata) :
  lua.interpreter.fetch_metadata L = Ok (Some md) L' -> lua_istable L (-1) = true.
Proof.
  unfold lua.interpreter.fetch_metadata, bind, gets.
  destruct (lua_istable L (-1)); [reflexivity | discriminate].
Qed.

(** The early return of [fetch_number] skips the pop.  On a table without
    the field x the nil that was fetched for x is what the next
    [lua_getfield] indexes: [fetch_metadata] raises a Lua error. *)
Lemma fetch_metadata_unset_x (L : lua_State) (base : list TValue) (h : Table) :
  stack L = (base ++ [VTable h])%list ->
  luaH_getstr h "x" = VNil ->
  lua.interpreter.fetch_metadata L
  = Throw (luaG_typeerror VNil "index") (api_push VNil L).
Proof.
  intros E X. unfold lua.interpreter.fetch_metadata.
  unfold bind at 1. unfold gets at 1.
  unfold lua_istable. rewrite (index2value_top L base _ E).
  cbv beta iota delta [negb].
  unfold bind at 1. rewrite (fetch_number_unset L base h "x" E) by now rewrite X.
  rewrite X. unfold bind at 1.
  unfold lua.interpreter.fetch_number at 1. unfold bind at 1.
  unfold lua_getfield. now rewrite index2value_push.
Qed.

End FetchFacts.

(** ** Extraction *)

Section ExtractFacts.
Context {core : LuaCore}.

Lemma index2value_top_inv (L : lua_State) (v : TValue) :
  index2value L (-1) = Some v -> exists base, stack L = (base ++ [v])%list.
Proof.
  unfold index2value, stack_slot. simpl.
  destruct (stack L) as [|a l _] using rev_ind; [discriminate|].
  rewrite length_app. simpl.
  replace (0 <=? Z.of_nat (List.length l + 1) + -1) with true
    by (symmetry; apply Z.leb_le; lia).
  replace (Z.to_nat (Z.of_nat (List.length l + 1) + -1)) with (List.length l) by lia.
  rewrite nth_error_app2 by lia. rewrite Nat.sub_diag. simpl.
  intros [= ->]. now exists l.
Qed.

(** After [error_message = lua_tostring(L, -1)] the top of the stack is
    that string. *)
Lemma assign_tostring_top (L L' : lua_State) (m : string) :
  lua.interpreter.assign_tostring L = Returns (m, L') ->
  index2value L' (-1) = Some (VString m).
Proof.
  unfold lua.interpreter.assign_tostring, lua_tostring.
  destruct (index2value L (-1)) as [v|] eqn:Ev.
  - destruct (index2value_top_inv L v Ev) as [base Eb].
    rewrite (stack_slot_top L base v Eb).
    destruct (luaO_tostring v) as [s|]; [|discriminate].
    intros [= <- <-]. rewrite Eb, list_update_last.
    now apply index2value_top with (base := base).
  - destruct (stack_slot L (-1)); discriminate.
Qed.

Lemma lua_istable_value (L : lua_State) (v : TValue) :
  index2value L (-1) = Some v ->
  lua_istable L (-1) = match v with VTable _ => true | _ => false end.
Proof. intros E. unfold lua_istable. now rewrite E. Qed.

(** With anything but a table on the top of the stack, the end of
    [extract_metadata] returns [nullptr]. *)
Lemma validate_and_fetch_no_table (m : string) (L : lua_State) :
  lua_istable L (-1) = false ->
  exists self', lua.interpreter.validate_and_fetch (m, L) = Returns (None, self').
Proof.
  intros E. unfold lua.interpreter.validate_and_fetch.
  destruct (negb (String.eqb m "")); [eauto|].
  rewrite (fetch_metadata_no_table L E). eauto.
Qed.

Lemma validate_and_fetch_some (m : string) (L : lua_State) (md : lua.script_metadata)
    (self' : lua.interpreter.impl) :
  lua.interpreter.validate_and_fetch (m, L) = Returns (Some md, self') ->
  m = EmptyString /\ lua_istable L (-1) = true.
Proof.
  unfold lua.interpreter.validate_and_fetch.
  destruct (String.eqb_spec m ""); simpl; [|discriminate].
  destruct (lua.interpreter.fetch_metadata L) as [r L'|] eqn:F; [|discriminate].
  intros [= -> _]. split; [assumption|]. now apply fetch_metadata_some_table in F.
Qed.

(** The state in which [extract_metadata] loads the chunk. *)
Definition load_state (self : lua.interpreter.impl) : lua_State :=
  lua_pushcfunction c_lua_error_handler (lua_settop 0 (lua.interpreter.lua self)).

Lemma extract_metadata_unfold (fuel : nat) (fs : lua.filesystem) (path : string)
    (self : lua.interpreter.impl) :
  lua.interpreter.extract_metadata fuel fs path self
  = obind (lua.interpreter.load_and_call fuel (lua.read_file fs path) path (load_state self))
          lua.interpreter.validate_and_fetch.
Proof. reflexivity. Qed.

(** A chunk that is rejected at load time leaves its message. *)
Lemma load_and_call_rejected (n : nat) (script path msg : string) (L : lua_State) :
  f_parser script ("=" ++ path) (Some "t") = inl msg ->
  exists L', lua.interpreter.load_and_call (S (S n)) script path L = Returns (msg, L')
             /\ lua_istable L' (-1) = false.
Proof.
  intros E. unfold lua.interpreter.load_and_call.
  rewrite lua_load_lua_reader. unfold load_chunk. rewrite E.
  destruct (lua.interpreter.assign_tostring (api_push (VString msg) L)) as [[m L']| |] eqn:A.
  - pose proof (assign_tostring_top _ _ _ A) as T.
    unfold lua.interpreter.assign_tostring, lua_tostring in A.
    rewrite (stack_slot_top (api_push (VString msg) L) (stack L) (VString msg) eq_refl),
      index2value_push in A.
    simpl in A. injection A as <- <-.
    eexists. split; [reflexivity|].
    unfold lua_istable. now rewrite T.
  - unfold lua.interpreter.assign_tostring, lua_tostring in A.
    rewrite (stack_slot_top (api_push (VString msg) L) (stack L) (VString msg) eq_refl),
      index2value_push in A. discriminate.
  - unfold lua.interpreter.assign_tostring in A.
    destruct (lua_tostring (-1) (api_push (VString msg) L)) as [[?|] ?]; discriminate.
Qed.

(** The protected call of [extract_metadata]: the stack holds the handler
    and the chunk. *)
Lemma lua_pcall_chunk (fuel : nat) (L : lua_State) (f : TValue) :
  stack L = [VCFunction c_lua_error_handler] ->
  forall rets g',
  luaD_call fuel false f [] (l_G L) = Finished rets g' ->
  lua_pcall fuel 0 1 1 (api_push f L)
  = Returns (LUA_OK, set_stack (set_G (api_push f L) g')
                       [VCFunction c_lua_error_handler; hd VNil rets]).
Proof.
  intros E rets g' R. unfold lua_pcall, lua_gettop, api_push. simpl. rewrite E. simpl.
  rewrite R. unfold adjust_results. simpl. now destruct rets.
Qed.

End ExtractFacts.

Section ExtractTheorems.
Context {core : LuaCore}.

Lemma load_state_stack (self : lua.interpreter.impl) :
  stack (load_state self) = [VCFunction c_lua_error_handler].
Proof. reflexivity. Qed.

Lemma load_state_G (self : lua.interpreter.impl) :
  l_G (load_state self) = l_G (lua.interpreter.lua self).
Proof. reflexivity. Qed.

Lemma load_and_call_finished (n : nat) (script path : string) (L : lua_State)
    (p : block) (rets : list TValue) (g' : global_State) :
  stack L = [VCFunction c_lua_error_handler] ->
  f_parser script ("=" ++ path) (Some "t") = inr p ->
  luaD_call (S (S n)) false (VLClosure p) [] (l_G L) = Finished rets g' ->
  lua.interpreter.load_and_call (S (S n)) script path L
  = Returns (EmptyString, set_stack (set_G (api_push (VLClosure p) L) g')
                            [VCFunction c_lua_error_handler; hd VNil rets]).
Proof.
  intros E P R. unfold lua.interpreter.load_and_call.
  rewrite lua_load_lua_reader. unfold load_chunk. rewrite P.
  now rewrite (lua_pcall_chunk _ L _ E rets g' R).
Qed.

(** A protected call that does not return LUA_OK has not finished the
    chunk, and conversely. *)
Lemma lua_pcall_chunk_inv (fuel : nat) (L L2 : lua_State) (f : TValue) (st : lua_status) :
  stack L = [VCFunction c_lua_error_handler] ->
  lua_pcall fuel 0 1 1 (api_push f L) = Returns (st, L2) ->
  (exists rets g', luaD_call fuel false f [] (l_G L) = Finished rets g'
                   /\ st = LUA_OK /\ index2value L2 (-1) = Some (hd VNil rets))
  \/ lua_status_eqb st LUA_OK = false.
Proof.
  intros E. unfold lua_pcall, lua_gettop, api_push. simpl. rewrite E. simpl.
  destruct (luaD_call fuel false f [] (l_G L)) as [rets g'|ci g'|e g'|why] eqn:R.
  - intros [= <- <-]. left. exists rets, g'. repeat split. now destruct rets.
  - intros [= <- <-]. now right.
  - destruct (luaD_call fuel false _ [e] g') as [rets g''|ci g''|e' g''|why];
      try discriminate; intros [= <- <-]; now right.
  - discriminate.
Qed.

(** Whatever the switch of [extract_metadata] leaves after a failure, it
    is no table. *)
Lemma failure_leaves_no_table (L2 L3 : lua_State) (m : string) :
  (if negb (lua_isnil L2 (-1)) then lua.interpreter.assign_tostring L2
   else Returns (EmptyString, L2)) = Returns (m, L3) ->
  lua_istable L3 (-1) = false.
Proof.
  destruct (lua_isnil L2 (-1)) eqn:N; simpl.
  - intros [= <- <-]. unfold lua_isnil in N. unfold lua_istable.
    destruct (index2value L2 (-1)) as [[]|]; congruence.
  - intros A. apply assign_tostring_top in A. unfold lua_istable. now rewrite A.
Qed.

Lemma load_and_call_inv (n : nat) (script path m : string) (L L' : lua_State) :
  stack L = [VCFunction c_lua_error_handler] ->
  lua.interpreter.load_and_call (S (S n)) script path L = Returns (m, L') ->
  lua_istable L' (-1) = true ->
  exists p rets g',
    f_parser script ("=" ++ path) (Some "t") = inr p
    /\ luaD_call (S (S n)) false (VLClosure p) [] (l_G L) = Finished rets g'
    /\ index2value L' (-1) = Some (hd VNil rets).
Proof.
  intros E H T.
  destruct (f_parser script ("=" ++ path) (Some "t")) as [msg|p] eqn:P.
  - destruct (load_and_call_rejected n script path msg L P) as [L1 [H1 T1]].
    rewrite H1 in H. injection H as <- <-. congruence.
  - unfold lua.interpreter.load_and_call in H.
    rewrite lua_load_lua_reader in H. unfold load_chunk in H. rewrite P in H.
    destruct (lua_pcall (S (S n)) 0 1 1 (api_push (VLClosure p) L)) as [[st L2]| |] eqn:C;
      try discriminate.
    simpl in H.
    destruct (lua_pcall_chunk_inv _ _ _ _ _ E C) as [[rets [g' [R [-> Top]]]]|NotOk].
    + simpl in H. injection H as <- <-. now exists p, rets, g'.
    + rewrite NotOk in H. simpl in H.
      apply failure_leaves_no_table in H. congruence.
Qed.

(** C6.  A script source that the VM rejects at load time (a syntax error,
    or a binary chunk where text is asked for) yields no metadata: the
    result of [extract_metadata] is [nullptr], for every such source and
    every state of the interpreter. *)
Theorem extract_metadata_syntax_error (fuel : nat) (fs : lua.filesystem) (path : string)
    (self : lua.interpreter.impl) (msg : string) :
  (2 <= fuel)%nat ->
  lua.interpreter.chunk_result fuel fs path self = inl msg ->
  exists self', lua.interpreter.extract_metadata fuel fs path self = Returns (None, self').
Proof.
  intros F. destruct fuel as [|[|n]]; try lia. clear F.
  unfold lua.interpreter.chunk_result.
  destruct (f_parser _ _ _) as [msg'|p] eqn:P; [|discriminate]. intros _.
  rewrite extract_metadata_unfold.
  destruct (load_and_call_rejected n _ path msg' (load_state self) P) as [L' [H T]].
  rewrite H. cbv beta iota delta [obind]. now apply validate_and_fetch_no_table.
Qed.

(** A chunk that runs to its end and returns no table gives [nullptr]. *)
Lemma extract_metadata_no_table (n : nat) (fs : lua.filesystem) (path : string)
    (self : lua.interpreter.impl) (rets : list TValue) (g' : global_State) :
  lua.interpreter.chunk_result (S (S n)) fs path self = inr (Finished rets g') ->
  (forall h, hd VNil rets <> VTable h) ->
  exists self',
    lua.interpreter.extract_metadata (S (S n)) fs path self = Returns (None, self').
Proof.
  unfold lua.interpreter.chunk_result.
  destruct (f_parser _ _ _) as [msg|p] eqn:P; [discriminate|].
  intros [= R] NT. rewrite extract_metadata_unfold.
  rewrite (load_and_call_finished n _ path (load_state self) p rets g'
             (load_state_stack self) P R).
  cbv beta iota delta [obind]. apply validate_and_fetch_no_table.
  unfold lua_istable.
  erewrite index2value_top
    with (base := [VCFunction c_lua_error_handler]) (v := hd VNil rets)
    by reflexivity.
  destruct (hd VNil rets); try reflexivity. now destruct (NT h).
Qed.

(** C10.  [extract_metadata] produces metadata only when the top-level
    chunk of the script returns a table as its (first and) single result;
    when the run of the chunk succeeds and returns anything else, or
    nothing, the result is [nullptr] although nothing failed. *)
Theorem extract_metadata_needs_table (fuel : nat) (fs : lua.filesystem) (path : string)
    (self : lua.interpreter.impl) :
  (2 <= fuel)%nat ->
  (forall md self',
      lua.interpreter.extract_metadata fuel fs path self = Returns (Some md, self') ->
      exists rets g' h,
        lua.interpreter.chunk_result fuel fs path self = inr (Finished rets g')
        /\ hd VNil rets = VTable h)
  /\ (forall rets g',
      lua.interpreter.chunk_result fuel fs path self = inr (Finished rets g') ->
      (forall h, hd VNil rets <> VTable h) ->
      exists self',
        lua.interpreter.extract_metadata fuel fs path self = Returns (None, self')).
Proof.
  intros F. destruct fuel as [|[|n]]; try lia. clear F. split.
  - intros md self'. rewrite extract_metadata_unfold.
    destruct (lua.interpreter.load_and_call _ _ _ _) as [[m L']| |] eqn:H; try discriminate.
    cbv beta iota delta [obind]. intros V. apply validate_and_fetch_some in V as [-> T].
    destruct (load_and_call_inv n _ _ _ _ _ (load_state_stack self) H T)
      as [p [rets [g' [P [R Top]]]]].
    rewrite (lua_istable_value _ _ Top) in T.
    destruct (hd VNil rets) as [| | | | |h| | | |] eqn:Hd; try discriminate.
    exists rets, g', h. unfold lua.interpreter.chunk_result. rewrite P.
    rewrite load_state_G in R. now rewrite R.
  - intros rets g'. apply extract_metadata_no_table.
Qed.

(** The metadata that [fetch_metadata] reads off a table, before it looks
    for the script function. *)
Definition table_metadata (h : Table) (c : option lua.bytecode) : lua.script_metadata :=
  {| lua.path := EmptyString;
     lua.map := v_tostring (luaH_getstr h "map");
     lua.x := cast_int (v_tointeger (luaH_getstr h "x"));
     lua.y := cast_int (v_tointeger (luaH_getstr h "y"));
     lua.facing := cast_int (v_tointeger (luaH_getstr h "facing"));
     lua.name := if v_isstring (luaH_getstr h "name")
                 then v_tostring (luaH_getstr h "name") else EmptyString;
     lua.sprite := cast_int (v_tointeger (luaH_getstr h "sprite"));
     lua.code := c |}.


(** the placement fields that are read before [name] are all there *)
Definition placement_set (h : Table) : Prop :=
  v_isnumber (luaH_getstr h "x") = true
  /\ v_isnumber (luaH_getstr h "y") = true
  /\ v_isnumber (luaH_getstr h "facing") = true
  /\ v_isnumber (luaH_getstr h "sprite") = true
  /\ v_isstring (luaH_getstr h "map") = true.

(** [fetch_metadata] on a table with all placement fields: the fields are
    read and the stack holds the global [script]. *)
Lemma fetch_metadata_fields (L : lua_State) (base : list TValue) (h : Table) :
  stack L = (base ++ [VTable h])%list ->
  placement_set h ->
  lua.interpreter.fetch_metadata L
  = (let L' := lua_getglobal "script" (set_stack L []) in
     if negb (lua_isfunction L' (-1)) then Ok (Some (table_metadata h None)) L'
     else
       let ws := snd (lua_dump lua_writer {| stream := EmptyString; total_size := 0 |} 1 L') in
       Ok (Some (table_metadata h
                   (Some {| lua.bytes := stream_read (Z.to_nat (total_size ws)) (stream ws) |})))
          L').
Proof.
  intros E (Hx & Hy & Hf & Hs & Hm).
  unfold lua.interpreter.fetch_metadata.
  unfold bind at 1. unfold gets at 1.
  rewrite (lua_istable_value L (VTable h) (index2value_top L base _ E)).
  cbv beta iota delta [negb].
  unfold bind at 1. rewrite (fetch_number_set L base h "x" E Hx).
  unfold bind at 1. rewrite (fetch_number_set L base h "y" E Hy).
  unfold bind at 1. rewrite (fetch_number_set L base h "facing" E Hf).
  unfold bind at 1. rewrite (fetch_number_set L base h "sprite" E Hs).
  unfold bind at 1. rewrite (fetch_string_set L base h "map" E Hm).
  unfold bind at 1.
  assert (N : exists L1, lua.interpreter.fetch_string "name" L
                         = Ok (if v_isstring (luaH_getstr h "name")
                               then v_tostring (luaH_getstr h "name") else EmptyString) L1
                         /\ set_stack L1 [] = set_stack L []).
  { destruct (v_isstring (luaH_getstr h "name")) eqn:Hn.
    - exists L. now rewrite (fetch_string_set L base h "name" E Hn).
    - eexists. now rewrite (fetch_string_unset L base h "name" E Hn). }
  destruct N as [L1 [-> S1]].
  unfold bind, modify, gets, ret. rewrite lua_settop_zero, S1.
  unfold table_metadata.
  destruct (lua_isfunction (lua_getglobal "script" (set_stack L [])) (-1)); reflexivity.
Qed.


(** C9 (amended).  A file that cannot be read is treated as an empty
    file: the result is the one for a path that holds the empty text, and
    with a core that compiles the empty text to the empty chunk it is
    [nullptr], the same value that reports every other failure. *)
Theorem extract_metadata_unreadable (fuel : nat) (fs : lua.filesystem) (path : string)
    (self : lua.interpreter.impl) :
  (2 <= fuel)%nat ->
  fs path = None ->
  luaY_parser EmptyString ("=" ++ path) = inr [] ->
  lua.interpreter.extract_metadata fuel fs path self
  = lua.interpreter.extract_metadata fuel (fun _ => Some EmptyString) path self
  /\ exists self',
       lua.interpreter.extract_metadata fuel fs path self = Returns (None, self').
Proof.
  intros F E P. destruct fuel as [|[|n]]; try lia. clear F. split.
  - unfold lua.interpreter.extract_metadata, lua.read_file. now rewrite E.
  - apply extract_metadata_no_table with (rets := []) (g' := l_G (lua.interpreter.lua self)).
    + unfold lua.interpreter.chunk_result, lua.read_file. rewrite E.
      unfold f_parser. simpl checkmode. now rewrite P.
    + intros h. discriminate.
Qed.


End ExtractTheorems.

(** ** The bridge *)

Section BridgeFacts.
Context {core : LuaCore}.

Definition v_pointer (v : TValue) : Z :=
  match v with
  | VLightUserdata p => p
  | _ => 0
  end.

Lemma extract_user_data_eq (name : string) (L : lua_State) :
  lua_helpers.extract_user_data name L = (v_pointer (luaH_getstr (l_gt (l_G L)) name), L).
Proof.
  unfold lua_helpers.extract_user_data, lua_getglobal, lua_islightuserdata, lua_touserdata.
  rewrite index2value_push, lua_pop_push.
  now destruct (luaH_getstr (l_gt (l_G L)) name).
Qed.

(** the context that the bridge functions find in a state *)
Definition context_of (L : lua_State) : lua_bridge.script_context :=
  {| lua_bridge.sd := v_pointer (luaH_getstr (l_gt (l_G L)) lua_helpers.SD_LUA_VARIABLE);
     lua_bridge.nd := v_pointer (luaH_getstr (l_gt (l_G L)) lua_helpers.ND_LUA_VARIABLE);
     lua_bridge.args := lua_gettop L |}.

Lemma new_script_context_eq (L : lua_State) :
  lua_bridge.new_script_context L = (context_of L, L).
Proof.
  unfold lua_bridge.new_script_context, lua_helpers.extract_session_data,
    lua_helpers.extract_npc_data.
  now rewrite !extract_user_data_eq.
Qed.




(** C4.  With no proper context [mes] logs its warning and returns; [next]
    and [close] return as well, without sending anything, and leave the
    whole state as it was: they log no warning.  None of the three raises
    a Lua error. *)
Theorem bridge_invalid_context (L : lua_State) :
  lua_bridge.is_valid (fst (lua_bridge.new_script_context L)) = false ->
  lua_bridge.mes L
  = CReturn 0 (with_srv (ShowWarning
      ("[lua::mes]: Trying to call with no proper context." ++ newline)) L)
  /\ lua_bridge.next L = CReturn 0 L
  /\ lua_bridge.close L = CReturn 0 L.
Proof.
  rewrite new_script_context_eq. simpl fst. intros V.
  unfold lua_bridge.mes, lua_bridge.next, lua_bridge.close.
  rewrite new_script_context_eq, V. simpl. auto.
Qed.

(** The bridge functions are registered and the context is a valid pair of
    pointers. *)
Definition bridge_ready (g : global_State) (sd nd : Z) : Prop :=
  luaH_getstr (l_gt g) "mes" = VCFunction c_mes
  /\ luaH_getstr (l_gt g) "next" = VCFunction c_next
  /\ luaH_getstr (l_gt g) "close" = VCFunction c_close
  /\ luaH_getstr (l_gt g) lua_helpers.SD_LUA_VARIABLE = VLightUserdata sd
  /\ luaH_getstr (l_gt g) lua_helpers.ND_LUA_VARIABLE = VLightUserdata nd
  /\ sd <> 0 /\ nd <> 0.

Definition send (p : clif_packet) (g : global_State) : global_State :=
  set_srv g (clif_send p (l_srv g)).

Lemma bridge_ready_send (g : global_State) (sd nd : Z) (p : clif_packet) :
  bridge_ready g sd nd -> bridge_ready (send p g) sd nd.
Proof. now unfold bridge_ready. Qed.

Lemma ready_context (g : global_State) (sd nd : Z) (s : list TValue) (y : bool) :
  bridge_ready g sd nd ->
  context_of {| stack := s; l_yieldable := y; l_G := g |}
  = {| lua_bridge.sd := sd; lua_bridge.nd := nd; lua_bridge.args := Z.of_nat (List.length s) |}
  /\ lua_bridge.is_valid {| lua_bridge.sd := sd; lua_bridge.nd := nd;
                            lua_bridge.args := Z.of_nat (List.length s) |} = true.
Proof.
  intros (_ & _ & _ & Hs & Hn & Zs & Zn). split.
  - unfold context_of. simpl. now rewrite Hs, Hn.
  - unfold lua_bridge.is_valid. simpl.
    apply Z.eqb_neq in Zs, Zn. now rewrite Zs, Zn.
Qed.

(** the calls [mes('...')] of a list of messages, and the packets they send *)
Definition mes_call (m : string) : stmt := SCall (EGlobal "mes") [EStr m].

Lemma precall_mes (g : global_State) (sd nd : Z) (m : string) (y : bool) :
  bridge_ready g sd nd ->
  luaD_precall y (VCFunction c_mes) [VString m] g
  = CDone [] (send (scriptmes sd (bl_id (l_srv g) nd) m) g).
Proof.
  intros R. unfold luaD_precall, call_C, lua_bridge.mes.
  rewrite new_script_context_eq.
  destruct (ready_context g sd nd [VString m] y R) as [-> ->].
  reflexivity.
Qed.


Lemma precall_close (g : global_State) (sd nd : Z) (y : bool) :
  bridge_ready g sd nd ->
  luaD_precall y (VCFunction c_close) [] g
  = CDone [] (send (scriptclose sd (bl_id (l_srv g) nd)) g).
Proof.
  intros R. unfold luaD_precall, call_C, lua_bridge.close.
  rewrite new_script_context_eq.
  destruct (ready_context g sd nd [] y R) as [-> ->].
  reflexivity.
Qed.

Definition send_all (ps : list clif_packet) (g : global_State) : global_State :=
  fold_left (fun g p => send p g) ps g.

Lemma send_all_sent (ps : list clif_packet) (g : global_State) :
  clif_sent (l_srv (send_all ps g)) = (clif_sent (l_srv g) ++ ps)%list.
Proof.
  revert g. induction ps as [|p ps IH]; intros g; simpl.
  - now rewrite app_nil_r.
  - rewrite IH. simpl. now rewrite <- app_assoc.
Qed.


Lemma send_all_threads (ps : list clif_packet) (g : global_State) :
  l_threads (send_all ps g) = l_threads g.
Proof. revert g. induction ps as [|p ps IH]; intros g; simpl; [reflexivity | now rewrite IH]. Qed.


Lemma luaV_execute_call (fuel : nat) (y : bool) (f : string) (args : list expr)
    (argv : list TValue) (rest : block) (ci : list block) (g : global_State) :
  evals (l_gt g) args = inl argv ->
  luaV_execute (S fuel) y ((SCall (EGlobal f) args :: rest) :: ci) g
  = match luaD_precall y (luaH_getstr (l_gt g) f) argv g with
    | NewFrame p => luaV_execute fuel y (p :: rest :: ci) g
    | CDone _ g' => luaV_execute fuel y (rest :: ci) g'
    | CYielded vs g' => Yielded vs (rest :: ci) g'
    | CFailed e g' => Errored e g'
    | CLimit why => Stopped why
    end.
Proof. intros E. simpl. now rewrite E. Qed.

(** A run of [mes] calls sends their lines one after the other and goes
    on with the rest of the body. *)
Lemma execute_mes_calls (msgs : list string) (rest : block) (ci : list block) (n : nat)
    (y : bool) (g : global_State) (sd nd : Z) :
  bridge_ready g sd nd ->
  luaV_execute (List.length msgs + n) y ((List.map mes_call msgs ++ rest)%list :: ci) g
  = luaV_execute n y (rest :: ci)
      (send_all (List.map (scriptmes sd (bl_id (l_srv g) nd)) msgs) g).
Proof.
  revert g. induction msgs as [|m msgs IH]; intros g R; [reflexivity|].
  simpl List.length. simpl Nat.add. simpl List.map. simpl app.
  unfold mes_call at 1. rewrite (luaV_execute_call _ _ _ _ [VString m]) by reflexivity.
  destruct R as (Hm & R'). rewrite Hm.
  rewrite (precall_mes g sd nd m y (conj Hm R')).
  rewrite IH by (apply bridge_ready_send; exact (conj Hm R')).
  reflexivity.
Qed.

End BridgeFacts.

(** ** Suspension *)

Section SuspensionFacts.
Context {core : LuaCore}.







Lemma nth_error_list_update {A} (l : list A) (i : nat) (a : A) :
  (i < List.length l)%nat -> nth_error (list_update l i a) i = Some a.
Proof.
  revert i. induction l as [|b l IH]; intros [|i] H; simpl in *; try lia; [reflexivity|].
  apply IH. lia.
Qed.

Lemma lua_status_put_thread (g : global_State) (co : nat) (th th0 : lua_Thread) :
  nth_error (l_threads g) co = Some th0 ->
  lua_status_of (put_thread g co th) co = Some (th_status th).
Proof.
  intros H. unfold lua_status_of, put_thread. simpl.
  rewrite nth_error_list_update; [reflexivity|].
  apply nth_error_Some. congruence.
Qed.

(** [resume] on a coroutine that holds only its function *)
Lemma resume_fresh (fuel : nat) (self : lua.executor.impl) (id : nat) (body : block) :
  lua.executor.thread self = Some id ->
  nth_error (l_threads (l_G (lua.executor.lua self))) id
  = Some {| th_stack := [VLClosure body]; th_ci := []; th_status := LUA_OK |} ->
  lua.executor.resume fuel self
  = obind (resume_end id [] (luaV_execute fuel true [body] (l_G (lua.executor.lua self))))
          (fun r => Returns (lua.executor.set_lua self
                               (set_G (lua.executor.lua self) (snd r)))).
Proof.
  intros T N. unfold lua.executor.resume, lua_resume. now rewrite T, N.
Qed.



Lemma execute_close (fuel : nat) (rest : block) (ci : list block) (g : global_State)
    (sd nd : Z) (y : bool) :
  bridge_ready g sd nd ->
  luaV_execute (S fuel) y ((SCall (EGlobal "close") [] :: rest) :: ci) g
  = luaV_execute fuel y (rest :: ci) (send (scriptclose sd (bl_id (l_srv g) nd)) g).
Proof.
  intros R. rewrite (luaV_execute_call _ _ _ _ []) by reflexivity.
  destruct R as (Hm & Hn & Hc & R'). rewrite Hc.
  now rewrite (precall_close g sd nd y (conj Hm (conj Hn (conj Hc R')))).
Qed.


End SuspensionFacts.

(** ** From the script to the running task *)

Section ScenarioFacts.
Context {core : LuaCore}.

Fixpoint flatten (pieces : list string) : string :=
  match pieces with
  | [] => EmptyString
  | p :: ps => (p ++ flatten ps)%string
  end.

Lemma string_app_assoc (a b c : string) : ((a ++ b) ++ c)%string = (a ++ (b ++ c))%string.
Proof. induction a as [|x a IH]; simpl; [reflexivity | now rewrite IH]. Qed.

Lemma string_length_app (a b : string) :
  String.length (a ++ b) = (String.length a + String.length b)%nat.
Proof. induction a as [|x a IH]; simpl; [reflexivity | now rewrite IH]. Qed.

(** [lua_writer] collects the pieces of a dump and counts their bytes. *)
Lemma dump_pieces_lua_writer (L : lua_State) (pieces : list string) (s : string) (t : Z) :
  dump_pieces L lua_writer pieces {| stream := s; total_size := t |}
  = (0, {| stream := (s ++ flatten pieces)%string;
           total_size := t + Z.of_nat (String.length (flatten pieces)) |}).
Proof.
  revert s t. induction pieces as [|p ps IH]; intros s t; simpl.
  - now rewrite append_empty_r, Z.add_0_r.
  - rewrite IH, string_app_assoc, string_length_app. do 2 f_equal. lia.
Qed.

Lemma stream_read_all (s : string) : stream_read (String.length s) s = s.
Proof. induction s as [|c s IH]; simpl; [reflexivity | now rewrite IH]. Qed.

(** the code that [fetch_metadata] stores for the global [script] *)
Definition script_code (g : global_State) : option lua.bytecode :=
  match luaH_getstr (l_gt g) "script" with
  | VLClosure p => Some {| lua.bytes := flatten (luaU_dump p true) |}
  | VCFunction _ => Some {| lua.bytes := EmptyString |}
  | _ => None
  end.

(** Extraction from a chunk that returns a table with all placement
    fields. *)
Lemma extract_metadata_table (n : nat) (fs : lua.filesystem) (path : string)
    (self : lua.interpreter.impl) (rets : list TValue) (g' : global_State) (h : Table) :
  lua.interpreter.chunk_result (S (S n)) fs path self = inr (Finished rets g') ->
  hd VNil rets = VTable h ->
  placement_set h ->
  exists self',
    lua.interpreter.extract_metadata (S (S n)) fs path self
    = Returns (Some (table_metadata h (script_code g')), self').
Proof.
  unfold lua.interpreter.chunk_result.
  destruct (f_parser _ _ _) as [msg|p] eqn:P; [discriminate|].
  intros [= R] Hd Hp. rewrite extract_metadata_unfold.
  rewrite (load_and_call_finished n _ path (load_state self) p rets g'
             (load_state_stack self) P R).
  cbv beta iota delta [obind]. unfold lua.interpreter.validate_and_fetch.
  rewrite Hd. simpl negb. cbv iota.
  erewrite fetch_metadata_fields
    with (base := [VCFunction c_lua_error_handler]) (h := h) by (reflexivity || assumption).
  cbv zeta.
  match goal with
  | |- context [lua_isfunction ?L0 (-1)] =>
      assert (Top : index2value L0 (-1) = Some (luaH_getstr (l_gt g') "script"))
        by (unfold lua_getglobal; now rewrite index2value_push);
      unfold lua_isfunction, lua_dump; rewrite !Top
  end.
  unfold script_code.
  destruct (luaH_getstr (l_gt g') "script") as [| | | | | |q|f| |]; simpl; eauto.
  rewrite dump_pieces_lua_writer. simpl.
  rewrite Nat2Z.id, stream_read_all. eauto.
Qed.

Lemma index2value_second (L : lua_State) (base : list TValue) (a b : TValue) :
  stack L = (base ++ [a; b])%list -> index2value L (-2) = Some a.
Proof.
  intros E. unfold index2value, stack_slot. rewrite E, length_app. simpl.
  replace (0 <=? Z.of_nat (List.length base + 2) + -2) with true
    by (symmetry; apply Z.leb_le; lia).
  simpl.
  replace (Z.to_nat (Z.of_nat (List.length base + 2) + -2)) with (List.length base) by lia.
  rewrite nth_error_app2 by lia. now rewrite Nat.sub_diag.
Qed.

Lemma list_update_end {A} (l : list A) (a b : A) :
  list_update (l ++ [a]) (List.length l) b = (l ++ [b])%list.
Proof. induction l as [|c l IH]; simpl; [reflexivity | now rewrite IH]. Qed.

(** the task that [run] creates for a function *)
Definition new_task (f : TValue) : lua_Thread :=
  {| th_stack := [f]; th_ci := []; th_status := LUA_OK |}.

(** the executor that [run] hands to [resume] when the load has left the
    value [f] on the stack *)
Definition started (self : lua.executor.impl) (f : TValue) : lua.executor.impl :=
  let L := lua.executor.lua self in
  let id := List.length (l_threads (l_G L)) in
  {| lua.executor.lua :=
       {| stack := (stack L ++ [f; VThread id])%list;
          l_yieldable := l_yieldable L;
          l_G := set_threads (l_G L) (l_threads (l_G L) ++ [new_task f]) |};
     lua.executor.thread := Some id;
     lua.executor.sd := lua.executor.sd self;
     lua.executor.nd := lua.executor.nd self |}.

(** [run] after the load: one new coroutine is created in the VM of the
    executor, the loaded value is moved into it, and it is resumed. *)
Lemma run_after_load (fuel : nat) (code : string) (self : lua.executor.impl)
    (st : lua_status) (f : TValue) :
  luaL_loadbuffer code "b" (lua.executor.lua self) = (st, api_push f (lua.executor.lua self)) ->
  lua.executor.run fuel code self
  = obind (lua.executor.resume fuel (started self f)) (fun self' => Returns (true, self')).
Proof.
  intros E. unfold lua.executor.run. rewrite E.
  unfold lua_newthread, lua_pushvalue.
  erewrite index2value_second with (base := stack (lua.executor.lua self)) (a := f)
    by (simpl; now rewrite <- app_assoc).
  unfold lua_xmove, lua_gettop. simpl.
  rewrite !length_app. simpl.
  replace (Z.to_nat (Z.of_nat (List.length (stack (lua.executor.lua self)) + 1 + 1 + 1) - 1))
    with (List.length ((stack (lua.executor.lua self) ++ [f]) ++ [VThread
            (List.length (l_threads (l_G (lua.executor.lua self))))]))
    by (rewrite !length_app; simpl; lia).
  rewrite skipn_app, skipn_all, firstn_app, firstn_all, Nat.sub_diag. simpl.
  rewrite nth_error_app2 by lia. rewrite Nat.sub_diag. simpl.
  rewrite list_update_end, app_nil_r, <- app_assoc. reflexivity.
Qed.

End ScenarioFacts.

(** ** The guard scenario *)

(** The script of the scenario once compiled: the global [script] is set
    to a function of four calls, and the chunk returns the table of the
    placement. *)
Definition guard_body : block :=
  [mes_call "Halt!"; SCall (EGlobal "next") []; mes_call "Move along.";
   SCall (EGlobal "close") []].

Definition guard_chunk : block :=
  [SAssign "script" (EFunction guard_body);
   SReturn [ETable [("name", EStr "Guard"); ("x", EInt 150); ("y", EInt 200);
                    ("facing", EInt 0); ("sprite", EInt 0); ("map", EStr "")]]].

Section Scenario.
Context {core : LuaCore}.






Lemma execute_end (fuel : nat) (y : bool) (g : global_State) :
  luaV_execute (S fuel) y [[]] g = Finished [] g.
Proof. reflexivity. Qed.








End Scenario.

(** ** Concrete runs on the reference core *)

Module Examples.
#[local] Existing Instance MiniLua.core.

(** a map server whose NPC at address 9 has id 110 *)
Definition srv0 : map_server :=
  {| bl_id := fun nd => if nd =? 9 then 110 else 0; clif_sent := []; showmsg := [] |}.

Definition guard_lua : string :=
  "function script() mes('Halt!') next() mes('Move along.') close() end
   return { name = 'Guard', x = 150, y = 200, facing = 0, sprite = 0, map = '' }".

(** the scenario with its fields as globals *)
Definition guard_globals_lua : string :=
  "name = 'Guard' x = 150 y = 200
   function script() mes('Halt!') next() mes('Move along.') close() end".

(** the scenario with a table that holds only the three fields *)
Definition guard_short_lua : string :=
  "function script() mes('Halt!') next() mes('Move along.') close() end
   return { name = 'Guard', x = 150, y = 200 }".

Definition sign_lua : string :=
  "return { name = 'Sign', x = 10, y = 20, facing = 4, sprite = 837, map = 'prontera' }".

Definition placement_lua : string := "x = 10 y = 20 name = 'Sign'".

Definition nox_lua : string :=
  "return { y = 20, facing = 4, sprite = 837, map = 'prontera', name = 'Sign' }".

Definition bad_lua : string := "x = = 1".

Definition boom_lua : string := "error('boom')".

Definition files : lua.filesystem :=
  fun path =>
    match find (fun kv => String.eqb path (fst kv))
               [("guard.lua", guard_lua); ("guard_globals.lua", guard_globals_lua);
                ("guard_short.lua", guard_short_lua); ("sign.lua", sign_lua);
                ("placement.lua", placement_lua); ("nox.lua", nox_lua);
                ("bad.lua", bad_lua); ("boom.lua", boom_lua)] with
    | Some kv => Some (snd kv)
    | None => None
    end.

Definition fresh : lua.interpreter.impl := lua.interpreter.new_impl srv0.

(** what the caller of [extract_metadata] gets *)
Definition returned {A B} (o : outcome (A * B)) : outcome A :=
  obind o (fun r => Returns (fst r)).

(** the interpreter after a call *)
Definition after (o : outcome (option lua.script_metadata * lua.interpreter.impl))
  : lua.interpreter.impl :=
  match o with
  | Returns (_, self) => self
  | _ => fresh
  end.

(** closed goals are settled by evaluation *)
Ltac run := reflexivity.

Example parse_guard : luaY_parser guard_lua "=guard.lua" = inr guard_chunk.
Proof. run. Qed.

Example reload_guard :
  f_parser (flatten (luaU_dump guard_body true)) "b" None = inr guard_body.
Proof. run. Qed.





(** C2, at a table without the field x: [fetch_number] returns 0 for x and
    leaves the nil on the stack, the [lua_getfield] for y then indexes
    that nil outside any protected call, and the process is lost. *)
Theorem unset_field_aborts :
  lua.interpreter.extract_metadata 10 files "nox.lua" fresh
  = Aborts (Panic (VString "attempt to index a nil value")).
Proof. run. Qed.

(** The same for the scenario when its table holds only name, x and y. *)
Example guard_short_aborts :
  lua.interpreter.extract_metadata 10 files "guard_short.lua" fresh
  = Aborts (Panic (VString "attempt to index a nil value")).
Proof. run. Qed.




(** a file with a syntax error *)
Lemma extract_metadata_syntax_error_witness :
  (2 <= 10)%nat
  /\ lua.interpreter.chunk_result 10 files "bad.lua" fresh = inl "bad.lua: syntax error"%string
  /\ exists self',
       lua.interpreter.extract_metadata 10 files "bad.lua" fresh = Returns (None, self').
Proof.
  assert (F : (2 <= 10)%nat) by (repeat constructor).
  assert (H : lua.interpreter.chunk_result 10 files "bad.lua" fresh
              = inl "bad.lua: syntax error"%string) by run.
  split; [exact F|]. split; [exact H|].
  exact (extract_metadata_syntax_error 10 files "bad.lua" fresh _ F H).
Defined.

(** the globals that the chunk of placement.lua leaves *)
Definition placement_globals : global_State :=
  match lua.interpreter.chunk_result 10 files "placement.lua" fresh with
  | inr (Finished _ g) => g
  | _ => l_G (lua.interpreter.lua fresh)
  end.

(** a file that sets globals and returns nothing *)
Lemma extract_metadata_needs_table_witness :
  (2 <= 10)%nat
  /\ lua.interpreter.chunk_result 10 files "placement.lua" fresh
     = inr (Finished [] placement_globals)
  /\ exists self',
       lua.interpreter.extract_metadata 10 files "placement.lua" fresh
       = Returns (None, self').
Proof.
  assert (F : (2 <= 10)%nat) by (repeat constructor).
  assert (H : lua.interpreter.chunk_result 10 files "placement.lua" fresh
              = inr (Finished [] placement_globals)) by run.
  split; [exact F|]. split; [exact H|].
  destruct (extract_metadata_needs_table 10 files "placement.lua" fresh F) as [_ N].
  apply (N [] placement_globals H). intros h. discriminate.
Defined.


Definition sign_table : Table :=
  [("map", VString "prontera"); ("sprite", VInteger 837); ("facing", VInteger 4);
   ("y", VInteger 20); ("x", VInteger 10); ("name", VString "Sign")].


(** C9, as stated: a path that cannot be read gives the caller the very
    result of a file with a syntax error and of a file whose chunk raises
    an error, the one [nullptr]. *)
Lemma unreadable_is_not_distinguished :
  returned (lua.interpreter.extract_metadata 10 files "missing.lua" fresh) = Returns None
  /\ returned (lua.interpreter.extract_metadata 10 files "missing.lua" fresh)
     = returned (lua.interpreter.extract_metadata 10 files "bad.lua" fresh)
  /\ returned (lua.interpreter.extract_metadata 10 files "missing.lua" fresh)
     = returned (lua.interpreter.extract_metadata 10 files "boom.lua" fresh).
Proof. repeat split; run. Qed.

(** a path without a file *)
Lemma extract_metadata_unreadable_witness :
  (2 <= 10)%nat
  /\ files "missing.lua" = None
  /\ luaY_parser EmptyString ("=" ++ "missing.lua") = inr []
  /\ lua.interpreter.extract_metadata 10 files "missing.lua" fresh
     = lua.interpreter.extract_metadata 10 (fun _ => Some EmptyString) "missing.lua" fresh
  /\ exists self',
       lua.interpreter.extract_metadata 10 files "missing.lua" fresh = Returns (None, self').
Proof.
  assert (F : (2 <= 10)%nat) by (repeat constructor).
  assert (H1 : files "missing.lua" = None) by run.
  assert (H2 : luaY_parser EmptyString ("=" ++ "missing.lua") = inr []) by run.
  do 3 (split; [assumption|]).
  exact (extract_metadata_unreadable 10 files "missing.lua" fresh F H1 H2).
Defined.

(** the state that a bridge function finds when a script of an executor
    calls it without arguments *)
Definition in_task (self : lua.executor.impl) : lua_State :=
  {| stack := []; l_yieldable := true; l_G := l_G (lua.executor.lua self) |}.

(** an executor created with a null NPC pointer *)
Lemma bridge_invalid_context_witness :
  lua_bridge.is_valid
    (fst (lua_bridge.new_script_context (in_task (lua.executor.new_impl 77 5 0 srv0)))) = false
  /\ lua_bridge.mes (in_task (lua.executor.new_impl 77 5 0 srv0))
     = CReturn 0 (with_srv (ShowWarning
         ("[lua::mes]: Trying to call with no proper context." ++ newline))
         (in_task (lua.executor.new_impl 77 5 0 srv0)))
  /\ lua_bridge.next (in_task (lua.executor.new_impl 77 5 0 srv0))
     = CReturn 0 (in_task (lua.executor.new_impl 77 5 0 srv0))
  /\ lua_bridge.close (in_task (lua.executor.new_impl 77 5 0 srv0))
     = CReturn 0 (in_task (lua.executor.new_impl 77 5 0 srv0)).
Proof.
  assert (H : lua_bridge.is_valid
                (fst (lua_bridge.new_script_context
                        (in_task (lua.executor.new_impl 77 5 0 srv0)))) = false) by run.
  split; [exact H|].
  exact (bridge_invalid_context (in_task (lua.executor.new_impl 77 5 0 srv0)) H).
Defined.




(** a script that waits by [coroutine.yield] *)
Definition sleeper : block :=
  [mes_call "Halt!"; SCall (EIndex (EGlobal "coroutine") "yield") []; mes_call "later"].

Example parse_sleeper :
  luaY_parser "mes('Halt!') coroutine.yield() mes('later')" "=sleeper.lua" = inr sleeper.
Proof. run. Qed.

Example reload_sleeper :
  f_parser (flatten (luaU_dump sleeper true)) "b" None = inr sleeper.
Proof. run. Qed.

(** the executor after a run *)
Definition ran (o : outcome (bool * lua.executor.impl)) : lua.executor.impl :=
  match o with
  | Returns (_, self) => self
  | _ => lua.executor.new_impl 77 5 9 srv0
  end.


(** C8, at a program given as source text: [luaL_loadbuffer] takes "b" as
    the name of the chunk and loads in any mode, so [run] compiles the
    text and runs it, where a load in binary mode refuses it. *)
Theorem run_accepts_source_text :
  fst (luaL_loadbufferx "mes('hi')" "b" (Some "b")
         (lua.executor.lua (lua.executor.new_impl 77 5 9 srv0))) = LUA_ERRSYNTAX
  /\ fst (luaL_loadbuffer "mes('hi')" "b"
            (lua.executor.lua (lua.executor.new_impl 77 5 9 srv0))) = LUA_OK
  /\ exists self',
       lua.executor.run 3 "mes('hi')" (lua.executor.new_impl 77 5 9 srv0)
       = Returns (true, self')
       /\ clif_sent (l_srv (l_G (lua.executor.lua self'))) = [scriptmes 5 110 "hi"].
Proof.
  split; [run|]. split; [run|].
  eexists. split; run.
Qed.

End Examples.

(** * Further properties of the two source files *)

(** ** Reader, writer and message handler *)

Section ReaderWriterFacts.
Context {core : LuaCore}.

(** X1.  [lua_reader] hands out the whole chunk at its first call and
    signals the end at every later one: however often [lua_load] asks
    (twice at least), it gets exactly the text, and a reader that has
    been read gives nothing more. *)
Theorem lua_reader_delivers_once (n : nat) (L : lua_State) (s : string) :
  luaZ_read (S (S n)) L lua_reader {| chunk := s; read := false |} = Some s
  /\ luaZ_read (S n) L lua_reader {| chunk := s; read := true |} = Some EmptyString
  /\ snd (lua_reader L {| chunk := s; read := false |}) = {| chunk := s; read := true |}.
Proof.
  split; [apply luaZ_read_lua_reader|]. split; reflexivity.
Qed.

(** X2.  [lua_writer] never reports an error, so [lua_dump] hands it every
    piece; the stream holds the pieces in their order, [total_size] is
    the number of bytes of the stream, and reading [total_size] bytes
    back gives the dump whole, whatever bytes it holds. *)
Theorem lua_writer_collects (L : lua_State) (pieces : list string) :
  let r := dump_pieces L lua_writer pieces {| stream := EmptyString; total_size := 0 |} in
  fst r = 0
  /\ stream (snd r) = flatten pieces
  /\ total_size (snd r) = Z.of_nat (String.length (flatten pieces))
  /\ stream_read (Z.to_nat (total_size (snd r))) (stream (snd r)) = flatten pieces.
Proof.
  cbv zeta. rewrite dump_pieces_lua_writer. simpl.
  repeat split. now rewrite Nat2Z.id, stream_read_all.
Qed.

(** what [lua_error_handler] makes of an error object *)
Definition handled (e : TValue) : TValue :=
  match luaO_tostring e with
  | Some m => VString (m ++ newline ++ "stack traceback:")
  | None => match e with
            | VNil => VNil
            | _ => VString "(no error message)"
            end
  end.

Lemma error_handler_value (e : TValue) (y : bool) (g : global_State) :
  exists L', lua_error_handler {| stack := [e]; l_yieldable := y; l_G := g |} = CReturn 1 L'
             /\ lastn 1 (stack L') = [handled e] /\ l_G L' = g.
Proof.
  unfold lua_error_handler, handled.
  destruct e; cbn; eexists; repeat split.
Qed.

Lemma append_not_empty (a b : string) : b <> EmptyString -> (a ++ b)%string <> EmptyString.
Proof. destruct a; simpl; [easy | discriminate]. Qed.

(** X3.  [lua_error_handler] never raises an error and returns one value.
    A nil error object stays nil; a string or a number becomes its text
    followed by a traceback; any other object becomes the text
    "(no error message)".  So the value is nil exactly for a nil error
    object and is a non-empty string otherwise. *)
Theorem lua_error_handler_result (e : TValue) (y : bool) (g : global_State) :
  exists L',
    lua_error_handler {| stack := [e]; l_yieldable := y; l_G := g |} = CReturn 1 L'
    /\ lastn 1 (stack L') = [handled e]
    /\ l_G L' = g
    /\ (e = VNil -> handled e = VNil)
    /\ (e <> VNil -> exists m, handled e = VString m /\ m <> EmptyString).
Proof.
  destruct (error_handler_value e y g) as (L' & H & V & G).
  exists L'. do 3 (split; [assumption|]). split.
  - now intros ->.
  - intros N. unfold handled.
    destruct (luaO_tostring e) as [m|] eqn:T.
    + eexists. split; [reflexivity|]. apply append_not_empty. discriminate.
    + destruct e; try easy; eexists; (split; [reflexivity | discriminate]).
Qed.

End ReaderWriterFacts.

(** ** More on extraction *)

Section MoreExtraction.
Context {core : LuaCore}.

Lemma luaD_call_handler (fuel : nat) (e : TValue) (g : global_State) :
  luaD_call fuel false (VCFunction c_lua_error_handler) [e] g = Finished [handled e] g.
Proof.
  unfold luaD_call, luaD_precall, call_C.
  destruct (error_handler_value e false g) as (L' & -> & V & ->).
  change (Z.to_nat 1) with 1%nat. now rewrite V.
Qed.


Lemma handled_not_table (e : TValue) :
  match handled e with VTable _ => False | _ => True end.
Proof. unfold handled. destruct (luaO_tostring e); [exact I|]. now destruct e. Qed.


(** X5.  For a chunk that returns a table with all placement fields, the
    code of the metadata follows the global [script]: a Lua function
    gives its dump with the debug information stripped, a C function
    gives code that is present but has no bytes ([lua_dump] refuses it
    and its result is not looked at), anything else gives no code. *)
Theorem extract_metadata_code (fuel : nat) (fs : lua.filesystem) (path : string)
    (self : lua.interpreter.impl) (rets : list TValue) (g' : global_State) (h : Table) :
  (2 <= fuel)%nat ->
  lua.interpreter.chunk_result fuel fs path self = inr (Finished rets g') ->
  hd VNil rets = VTable h ->
  placement_set h ->
  exists md self',
    lua.interpreter.extract_metadata fuel fs path self = Returns (Some md, self')
    /\ lua.code md
       = match luaH_getstr (l_gt g') "script" with
         | VLClosure p => Some {| lua.bytes := flatten (luaU_dump p true) |}
         | VCFunction _ => Some {| lua.bytes := EmptyString |}
         | _ => None
         end.
Proof.
  intros F. destruct fuel as [|[|n]]; try lia. clear F. intros R Hd P.
  destruct (extract_metadata_table n fs path self rets g' h R Hd P) as [self' E].
  eexists _, self'. split; [exact E|]. reflexivity.
Qed.

End MoreExtraction.

(** ** What the fetch functions keep and give *)

Section FetchInvariants.
Context {core : LuaCore}.

(** An API computation that leaves the shared part of the state alone
    and whose value, when it returns, satisfies [Q]. *)
Definition stack_only {A} (m : API A) (Q : A -> Prop) : Prop :=
  forall L, match m L with
            | Ok a L' => Q a /\ l_G L' = l_G L
            | Throw _ L' => l_G L' = l_G L
            end.

Lemma stack_only_ret {A} (a : A) (Q : A -> Prop) : Q a -> stack_only (ret a) Q.
Proof. intros H L. now split. Qed.

Lemma stack_only_bind {A B} (m : API A) (k : A -> API B) (P : A -> Prop) (Q : B -> Prop) :
  stack_only m P -> (forall a, P a -> stack_only (k a) Q) -> stack_only (bind m k) Q.
Proof.
  intros Hm Hk L. unfold bind. specialize (Hm L).
  destruct (m L) as [a L1|e L1]; [|assumption].
  destruct Hm as [Pa G1]. specialize (Hk a Pa L1).
  destruct (k a L1) as [b L2|e L2]; [split; [tauto | intuition congruence] | congruence].
Qed.

Lemma stack_only_gets {A} (f : lua_State -> A) (Q : A -> Prop) :
  (forall L, Q (f L)) -> stack_only (gets f) Q.
Proof. intros H L. now split. Qed.

Lemma stack_only_modify (f : lua_State -> lua_State) :
  (forall L, l_G (f L) = l_G L) -> stack_only (modify f) (fun _ => True).
Proof. intros H L. now split. Qed.

Lemma stack_only_getfield (idx : Z) (k : string) :
  stack_only (lua_getfield idx k) (fun _ => True).
Proof.
  intros L. unfold lua_getfield.
  destruct (index2value L idx) as [t|]; [|reflexivity].
  destruct (luaV_get t k); [now split | reflexivity].
Qed.

Lemma lua_settop_G (idx : Z) (L : lua_State) : l_G (lua_settop idx L) = l_G L.
Proof. unfold lua_settop. now destruct (0 <=? idx). Qed.

Lemma lua_tostring_G (idx : Z) (L : lua_State) : l_G (snd (lua_tostring idx L)) = l_G L.
Proof.
  unfold lua_tostring.
  destruct (stack_slot L idx); [|reflexivity].
  destruct (index2value L idx) as [v|]; [|reflexivity].
  now destruct (luaO_tostring v).
Qed.

(** the range of the C type [int] *)
Definition in_int (z : Z) : Prop := - 2 ^ 31 <= z < 2 ^ 31.

Lemma cast_int_range (i : Z) : in_int (cast_int i).
Proof.
  unfold in_int, cast_int.
  pose proof (Z.mod_pos_bound (i + 2 ^ 31) (2 ^ 32) ltac:(lia)). lia.
Qed.

Lemma cast_int_id (i : Z) : in_int i -> cast_int i = i.
Proof.
  unfold in_int, cast_int. intros H.
  rewrite Z.mod_small by lia. lia.
Qed.

Lemma fetch_number_stack_only (k : string) :
  stack_only (lua.interpreter.fetch_number k) in_int.
Proof.
  unfold lua.interpreter.fetch_number.
  eapply stack_only_bind; [apply stack_only_getfield|]. intros _ _.
  eapply stack_only_bind with (P := fun _ => True); [now apply stack_only_gets|].
  intros isnumber _. destruct isnumber; simpl.
  - eapply stack_only_bind with (P := in_int).
    + apply stack_only_gets. intros L. apply cast_int_range.
    + intros n Hn. eapply stack_only_bind.
      * apply stack_only_modify. intros L. apply lua_settop_G.
      * intros _ _. now apply stack_only_ret.
  - apply stack_only_ret. unfold in_int. lia.
Qed.

Lemma fetch_string_stack_only (k : string) :
  stack_only (lua.interpreter.fetch_string k) (fun _ => True).
Proof.
  unfold lua.interpreter.fetch_string.
  eapply stack_only_bind; [apply stack_only_getfield|]. intros _ _.
  eapply stack_only_bind with (P := fun _ => True); [now apply stack_only_gets|].
  intros isstring _. destruct isstring; simpl.
  - eapply stack_only_bind with (P := fun _ => True).
    + intros L. pose proof (lua_tostring_G (-1) L) as H.
      destruct (lua_tostring (-1) L). now split.
    + intros str _. eapply stack_only_bind.
      * apply stack_only_modify. intros L. apply lua_settop_G.
      * intros _ _. now apply stack_only_ret.
  - now apply stack_only_ret.
Qed.

(** what holds of every metadata that [fetch_metadata] builds *)
Definition well_formed (md : lua.script_metadata) : Prop :=
  lua.path md = EmptyString
  /\ in_int (lua.x md) /\ in_int (lua.y md)
  /\ in_int (lua.facing md) /\ in_int (lua.sprite md).

Lemma fetch_metadata_stack_only :
  stack_only lua.interpreter.fetch_metadata
             (fun r => forall md, r = Some md -> well_formed md).
Proof.
  unfold lua.interpreter.fetch_metadata.
  eapply stack_only_bind with (P := fun _ => True); [now apply stack_only_gets|].
  intros istable _. destruct istable; simpl; [|now apply stack_only_ret].
  eapply stack_only_bind; [apply fetch_number_stack_only|]. intros m_x Hx.
  eapply stack_only_bind; [apply fetch_number_stack_only|]. intros m_y Hy.
  eapply stack_only_bind; [apply fetch_number_stack_only|]. intros m_f Hf.
  eapply stack_only_bind; [apply fetch_number_stack_only|]. intros m_s Hs.
  eapply stack_only_bind; [apply fetch_string_stack_only|]. intros m_map _.
  eapply stack_only_bind; [apply fetch_string_stack_only|]. intros m_name _.
  eapply stack_only_bind; [apply stack_only_modify; intros L; apply lua_settop_G|].
  intros _ _.
  eapply stack_only_bind; [apply stack_only_modify; intros L; reflexivity|].
  intros _ _.
  eapply stack_only_bind with (P := fun _ => True); [now apply stack_only_gets|].
  intros isfunction _. destruct isfunction; simpl.
  - eapply stack_only_bind with (P := fun _ => True); [now apply stack_only_gets|].
    intros dumped _. apply stack_only_ret. intros md [= <-].
    unfold well_formed. simpl. tauto.
  - apply stack_only_ret. intros md [= <-]. unfold well_formed. simpl. tauto.
Qed.

(** the metadata that [extract_metadata] returns was built by
    [fetch_metadata] *)
Lemma extract_metadata_built (fuel : nat) (fs : lua.filesystem) (path : string)
    (self self' : lua.interpreter.impl) (md : lua.script_metadata) :
  lua.interpreter.extract_metadata fuel fs path self = Returns (Some md, self') ->
  exists L, lua.interpreter.fetch_metadata L = Ok (Some md) (lua.interpreter.lua self').
Proof.
  rewrite extract_metadata_unfold.
  destruct (lua.interpreter.load_and_call _ _ _ _) as [[m L]| |]; try discriminate.
  cbv beta iota delta [obind]. unfold lua.interpreter.validate_and_fetch.
  destruct (negb (String.eqb m "")); [discriminate|].
  destruct (lua.interpreter.fetch_metadata L) as [r L'|] eqn:F; [|discriminate].
  intros [= -> <-]. now exists L.
Qed.

(** X6.  [extract_metadata] never fills in the field [path] of the
    metadata: whatever path the file was read from, the metadata that
    comes back has the empty path. *)
Theorem metadata_path_is_empty (fuel : nat) (fs : lua.filesystem) (path : string)
    (self self' : lua.interpreter.impl) (md : lua.script_metadata) :
  lua.interpreter.extract_metadata fuel fs path self = Returns (Some md, self') ->
  lua.path md = EmptyString.
Proof.
  intros E. destruct (extract_metadata_built _ _ _ _ _ _ E) as [L F].
  pose proof (fetch_metadata_stack_only L) as H. rewrite F in H.
  now destruct H as [W _]; destruct (W md eq_refl).
Qed.

(** X7.  The four numbers of every metadata that [extract_metadata]
    returns lie in the range of a 32-bit [int]: a Lua integer outside
    that range is cut to its low 32 bits, and one inside is kept. *)
Theorem metadata_numbers_are_ints (fuel : nat) (fs : lua.filesystem) (path : string)
    (self self' : lua.interpreter.impl) (md : lua.script_metadata) :
  lua.interpreter.extract_metadata fuel fs path self = Returns (Some md, self') ->
  (in_int (lua.x md) /\ in_int (lua.y md)
   /\ in_int (lua.facing md) /\ in_int (lua.sprite md))
  /\ (forall i, in_int i -> cast_int i = i).
Proof.
  intros E. destruct (extract_metadata_built _ _ _ _ _ _ E) as [L F].
  pose proof (fetch_metadata_stack_only L) as H. rewrite F in H.
  destruct H as [W _]. destruct (W md eq_refl) as (_ & R).
  split; [exact R | exact cast_int_id].
Qed.

End FetchInvariants.

(** ** Unset placement fields *)

Section UnsetFields.
Context {core : LuaCore}.

Lemma fetch_number_on_nil (k : string) (L : lua_State) :
  index2value L (-1) = Some VNil ->
  lua.interpreter.fetch_number k L = Throw (luaG_typeerror VNil "index") L.
Proof.
  intros T. unfold lua.interpreter.fetch_number. unfold bind at 1.
  unfold lua_getfield. now rewrite T.
Qed.

Lemma fetch_string_on_nil (k : string) (L : lua_State) :
  index2value L (-1) = Some VNil ->
  lua.interpreter.fetch_string k L = Throw (luaG_typeerror VNil "index") L.
Proof.
  intros T. unfold lua.interpreter.fetch_string. unfold bind at 1.
  unfold lua_getfield. now rewrite T.
Qed.

(** a field that holds what its fetch function accepts, or is not set *)
Definition number_or_unset (h : Table) (k : string) : Prop :=
  v_isnumber (luaH_getstr h k) = true \/ luaH_getstr h k = VNil.

Definition string_or_unset (h : Table) (k : string) : Prop :=
  v_isstring (luaH_getstr h k) = true \/ luaH_getstr h k = VNil.

Lemma fetch_metadata_unset (L : lua_State) (base : list TValue) (h : Table) :
  stack L = (base ++ [VTable h])%list ->
  number_or_unset h "x" -> number_or_unset h "y" ->
  number_or_unset h "facing" -> number_or_unset h "sprite" ->
  string_or_unset h "map" ->
  ~ placement_set h ->
  lua.interpreter.fetch_metadata L
  = Throw (luaG_typeerror VNil "index") (api_push VNil L).
Proof.
  intros E Hx Hy Hf Hs Hm NP.
  unfold lua.interpreter.fetch_metadata.
  unfold bind at 1. unfold gets at 1.
  unfold lua_istable. rewrite (index2value_top L base _ E).
  cbv beta iota delta [negb].
  destruct Hx as [Hx|Hx].
  2:{ unfold bind at 1. rewrite (fetch_number_unset L base h "x" E) by now rewrite Hx.
      rewrite Hx. unfold bind at 1.
      now rewrite fetch_number_on_nil by apply index2value_push. }
  unfold bind at 1. rewrite (fetch_number_set L base h "x" E Hx).
  destruct Hy as [Hy|Hy].
  2:{ unfold bind at 1. rewrite (fetch_number_unset L base h "y" E) by now rewrite Hy.
      rewrite Hy. unfold bind at 1.
      now rewrite fetch_number_on_nil by apply index2value_push. }
  unfold bind at 1. rewrite (fetch_number_set L base h "y" E Hy).
  destruct Hf as [Hf|Hf].
  2:{ unfold bind at 1. rewrite (fetch_number_unset L base h "facing" E) by now rewrite Hf.
      rewrite Hf. unfold bind at 1.
      now rewrite fetch_number_on_nil by apply index2value_push. }
  unfold bind at 1. rewrite (fetch_number_set L base h "facing" E Hf).
  destruct Hs as [Hs|Hs].
  2:{ unfold bind at 1. rewrite (fetch_number_unset L base h "sprite" E) by now rewrite Hs.
      rewrite Hs. unfold bind at 1.
      now rewrite fetch_string_on_nil by apply index2value_push. }
  unfold bind at 1. rewrite (fetch_number_set L base h "sprite" E Hs).
  destruct Hm as [Hm|Hm].
  2:{ unfold bind at 1. rewrite (fetch_string_unset L base h "map" E) by now rewrite Hm.
      rewrite Hm. unfold bind at 1.
      now rewrite fetch_string_on_nil by apply index2value_push. }
  destruct NP. now repeat split.
Qed.

(** X8.  When the chunk returns a table in which each of x, y, facing,
    sprite and map is either set to a value of its kind or not set, and
    at least one of them is not set, [extract_metadata] does not return:
    the fetch of the unset field leaves its nil on the stack, the fetch
    after it indexes that nil, and the Lua error raised outside any
    protected call ends the process. *)
Theorem extract_metadata_unset_placement (fuel : nat) (fs : lua.filesystem) (path : string)
    (self : lua.interpreter.impl) (rets : list TValue) (g' : global_State) (h : Table) :
  (2 <= fuel)%nat ->
  lua.interpreter.chunk_result fuel fs path self = inr (Finished rets g') ->
  hd VNil rets = VTable h ->
  number_or_unset h "x" -> number_or_unset h "y" ->
  number_or_unset h "facing" -> number_or_unset h "sprite" ->
  string_or_unset h "map" ->
  ~ placement_set h ->
  lua.interpreter.extract_metadata fuel fs path self
  = Aborts (Panic (VString "attempt to index a nil value")).
Proof.
  intros F. destruct fuel as [|[|n]]; try lia. clear F.
  unfold lua.interpreter.chunk_result.
  destruct (f_parser _ _ _) as [msg|p] eqn:P; [discriminate|].
  intros [= R] Hd Hx Hy Hf Hs Hm NP. rewrite extract_metadata_unfold.
  rewrite (load_and_call_finished n _ path (load_state self) p rets g'
             (load_state_stack self) P R).
  cbv beta iota delta [obind]. unfold lua.interpreter.validate_and_fetch.
  rewrite Hd. simpl negb. cbv iota.
  now erewrite fetch_metadata_unset
    with (base := [VCFunction c_lua_error_handler]) (h := h) by (reflexivity || assumption).
Qed.

End UnsetFields.

(** ** Extraction and the map server *)

Section ExtractionIsQuiet.
Context {core : LuaCore}.

(** a value that holds none of the three bridge functions *)
Fixpoint bridge_free (v : TValue) : bool :=
  match v with
  | VCFunction c_mes | VCFunction c_next | VCFunction c_close => false
  | VTable h =>
      (fix all (h : list (string * TValue)) : bool :=
         match h with
         | [] => true
         | (_, w) :: h' => bridge_free w && all h'
         end) h
  | _ => true
  end.

Definition bridge_free_table (h : Table) : bool :=
  forallb (fun kv => bridge_free (snd kv)) h.

Lemma bridge_free_VTable (h : Table) : bridge_free (VTable h) = bridge_free_table h.
Proof.
  induction h as [|[k w] h IH]; [reflexivity|].
  simpl in *. now rewrite IH.
Qed.

Lemma bridge_free_getstr (h : Table) (k : string) :
  bridge_free_table h = true -> bridge_free (luaH_getstr h k) = true.
Proof.
  induction h as [|[k' w] h IH]; simpl; [reflexivity|].
  intros H. apply andb_prop in H as [Hw Hh].
  destruct (String.eqb k k'); auto.
Qed.

Lemma bridge_free_remove (h : Table) (k : string) :
  bridge_free_table h = true -> bridge_free_table (luaH_remove h k) = true.
Proof.
  induction h as [|[k' w] h IH]; simpl; [reflexivity|].
  intros H. apply andb_prop in H as [Hw Hh].
  destruct (String.eqb k k'); simpl; auto. now rewrite Hw, IH.
Qed.

Lemma bridge_free_set (h : Table) (k : string) (v : TValue) :
  bridge_free_table h = true -> bridge_free v = true ->
  bridge_free_table (luaH_set h k v) = true.
Proof.
  intros Hh Hv. pose proof (bridge_free_remove h k Hh) as Hr.
  unfold luaH_set. destruct v; try assumption;
    unfold bridge_free_table; cbn [forallb snd]; fold (bridge_free_table (luaH_remove h k));
    now rewrite Hv, Hr.
Qed.

Lemma bridge_free_get (t : TValue) (k : string) :
  bridge_free t = true ->
  match luaV_get t k with
  | inl v => bridge_free v = true
  | inr _ => True
  end.
Proof.
  destruct t; try exact (fun _ => I).
  - intros _. unfold luaV_get. now apply bridge_free_getstr.
  - rewrite bridge_free_VTable. unfold luaV_get. apply bridge_free_getstr.
Qed.

(** Expressions build their values from constants, from the globals and
    from the library of strings. *)
Lemma bridge_free_eval (gt : Table) :
  bridge_free_table gt = true ->
  forall e, match eval gt e with
            | inl v => bridge_free v = true
            | inr _ => True
            end.
Proof.
  intros Hg. fix IH 1. intros e. destruct e as [| | |n|s|x|e' k|fields|body];
    try reflexivity.
  - apply bridge_free_getstr, Hg.
  - cbn [eval]. specialize (IH e'). destruct (eval gt e') as [t|]; [|exact I].
    now apply bridge_free_get.
  - cbn [eval].
    assert (A : forall acc, bridge_free_table acc = true ->
                match (fix fill (fs : list (string * expr)) (h : Table) : TValue + TValue :=
                         match fs with
                         | [] => inl (VTable h)
                         | (k, e') :: fs' =>
                             match eval gt e' with
                             | inl v => fill fs' (luaH_set h k v)
                             | inr err => inr err
                             end
                         end) fields acc with
                | inl v => bridge_free v = true
                | inr _ => True
                end).
    { induction fields as [|[k e'] fs IHfs]; intros acc Ha.
      - now rewrite bridge_free_VTable.
      - specialize (IH e'). destruct (eval gt e') as [v|]; [|exact I].
        apply IHfs. now apply bridge_free_set. }
    now apply A.
Qed.

Lemma error_handler_G (L : lua_State) :
  exists L', lua_error_handler L = CReturn 1 L' /\ l_G L' = l_G L.
Proof.
  unfold lua_error_handler.
  pose proof (lua_tostring_G 1 L) as T.
  destruct (lua_tostring 1 L) as [[m|] L1]; simpl in T.
  - eexists. split; [reflexivity | exact T].
  - destruct (negb (lua_isnoneornil L1 1)); cbn; eexists; (split; [reflexivity | exact T]).
Qed.

(** the state in which a call ends, when it is followed to its end *)
Definition final_state (x : execution) : option global_State :=
  match x with
  | Finished _ g | Yielded _ _ g | Errored _ g => Some g
  | Stopped _ => None
  end.

(** the state that a C function leaves *)
Definition c_state (r : c_result) : lua_State :=
  match r with
  | CReturn _ L | CYield _ L | CThrow _ L => L
  end.

(** what a run without bridge functions keeps: the map server, and
    globals without bridge functions *)
Definition quiet (g g' : global_State) : Prop :=
  l_srv g' = l_srv g /\ bridge_free_table (l_gt g') = true.

Lemma newthread_G (L : lua_State) :
  l_srv (l_G (snd (lua_newthread L))) = l_srv (l_G L)
  /\ l_gt (l_G (snd (lua_newthread L))) = l_gt (l_G L)
  /\ bl_id (l_srv (l_G (snd (lua_newthread L)))) = bl_id (l_srv (l_G L)).
Proof. now repeat split. Qed.

Lemma xmove_G (to : nat) (n : Z) (L : lua_State) :
  l_srv (l_G (lua_xmove to n L)) = l_srv (l_G L)
  /\ l_gt (l_G (lua_xmove to n L)) = l_gt (l_G L).
Proof. unfold lua_xmove. now destruct (nth_error _ to). Qed.

Lemma pushvalue_G (idx : Z) (L : lua_State) : l_G (lua_pushvalue idx L) = l_G L.
Proof. unfold lua_pushvalue. now destruct (index2value L idx). Qed.

(** [coroutine.create] leaves the map server and the globals alone. *)
Lemma cocreate_G (L : lua_State) :
  l_srv (l_G (c_state (luaB_cocreate L))) = l_srv (l_G L)
  /\ l_gt (l_G (c_state (luaB_cocreate L))) = l_gt (l_G L).
Proof.
  unfold luaB_cocreate. destruct (negb _); [now split|].
  pose proof (newthread_G L) as (S1 & T1 & _).
  destruct (lua_newthread L) as [NL L1]. simpl in S1, T1. simpl c_state.
  destruct (xmove_G NL 1 (lua_pushvalue 1 L1)) as [S2 T2].
  rewrite S2, T2, pushvalue_G. now split.
Qed.

Lemma lib_call_G (name : string) (L : lua_State) (r : c_result) :
  call_C (c_lib name) L = inr r ->
  l_srv (l_G (c_state r)) = l_srv (l_G L) /\ l_gt (l_G (c_state r)) = l_gt (l_G L).
Proof.
  unfold call_C.
  destruct (String.eqb name "error").
  { intros [= <-]. unfold luaB_error. destruct (negb _); [now split|].
    destruct (index2value _ 1); cbn [c_state]; now rewrite lua_settop_G. }
  destruct (String.eqb name "coroutine.yield").
  { intros [= <-]. unfold luaB_yield, lua_yield. now destruct (l_yieldable L). }
  destruct (String.eqb name "coroutine.create"); [|discriminate].
  intros [= <-]. apply cocreate_G.
Qed.

Lemma precall_quiet (y : bool) (f : TValue) (argv : list TValue) (g : global_State) :
  bridge_free f = true ->
  match luaD_precall y f argv g with
  | CDone _ g' | CYielded _ g' | CFailed _ g' => l_srv g' = l_srv g /\ l_gt g' = l_gt g
  | _ => True
  end.
Proof.
  intros B. unfold luaD_precall. destruct f; try exact I; try (now split).
  destruct f; try discriminate.
  - unfold call_C.
    destruct (error_handler_G {| stack := argv; l_yieldable := y; l_G := g |})
      as (L' & -> & G). now rewrite G.
  - pose proof (lib_call_G name {| stack := argv; l_yieldable := y; l_G := g |}) as K.
    destruct (call_C (c_lib name) _) as [why|[n L'|n L'|e L']]; try exact I;
      exact (K _ eq_refl).
Qed.

Lemma execute_quiet (fuel : nat) (y : bool) (ci : list block) (g : global_State) :
  bridge_free_table (l_gt g) = true ->
  forall g', final_state (luaV_execute fuel y ci g) = Some g' -> quiet g g'.
Proof.
  revert ci g. induction fuel as [|fuel IH]; intros ci g B g'; [discriminate|].
  assert (Q0 : quiet g g) by (now split).
  destruct ci as [|[|[x e|f args|es] rest] ci]; simpl.
  - now intros [= <-].
  - destruct ci; [now intros [= <-] | now apply IH].
  - pose proof (bridge_free_eval _ B e) as Be.
    destruct (eval (l_gt g) e) as [v|]; [|now intros [= <-]].
    intros H. apply IH in H.
    + destruct H as (S1 & B1). now split.
    + simpl. now apply bridge_free_set.
  - pose proof (bridge_free_eval _ B f) as Bf.
    destruct (eval (l_gt g) f) as [fv|]; [|now intros [= <-]].
    destruct (evals (l_gt g) args) as [argv|]; [|now intros [= <-]].
    pose proof (precall_quiet y fv argv g Bf) as P.
    destruct (luaD_precall y fv argv g) as [p|rets g1|vs g1|e g1|why].
    + now apply IH.
    + destruct P as [S1 T1]. intros H. apply IH in H; [|now rewrite T1].
      destruct H as [S2 B2]. split; [congruence | exact B2].
    + destruct P as [S1 T1]. intros [= <-]. split; [exact S1 | now rewrite T1].
    + destruct P as [S1 T1]. intros [= <-]. split; [exact S1 | now rewrite T1].
    + discriminate.
  - destruct (evals (l_gt g) es); [|now intros [= <-]].
    destruct ci; [now intros [= <-] | now apply IH].
Qed.

Lemma call_quiet (fuel : nat) (y : bool) (f : TValue) (argv : list TValue)
    (g : global_State) :
  bridge_free f = true -> bridge_free_table (l_gt g) = true ->
  forall g', final_state (luaD_call fuel y f argv g) = Some g' -> quiet g g'.
Proof.
  intros Bf B g'. unfold luaD_call.
  pose proof (precall_quiet y f argv g Bf) as P.
  destruct (luaD_precall y f argv g) as [p|rets g1|vs g1|e g1|why].
  - now apply execute_quiet.
  - destruct P as [S1 T1]. intros [= <-]. split; [exact S1 | now rewrite T1].
  - destruct P as [S1 T1]. intros [= <-]. split; [exact S1 | now rewrite T1].
  - destruct P as [S1 T1]. intros [= <-]. split; [exact S1 | now rewrite T1].
  - discriminate.
Qed.

Lemma quiet_trans (g1 g2 g3 : global_State) : quiet g1 g2 -> quiet g2 g3 -> quiet g1 g3.
Proof. unfold quiet. intuition congruence. Qed.

(** the protected call of [extract_metadata] *)
Lemma pcall_quiet (fuel : nat) (L L2 : lua_State) (p : block) (st : lua_status) :
  stack L = [VCFunction c_lua_error_handler] ->
  bridge_free_table (l_gt (l_G L)) = true ->
  lua_pcall fuel 0 1 1 (api_push (VLClosure p) L) = Returns (st, L2) ->
  quiet (l_G L) (l_G L2).
Proof.
  intros E B. unfold lua_pcall, lua_gettop, api_push, index2value, stack_slot.
  simpl. rewrite E. simpl.
  pose proof (call_quiet fuel false (VLClosure p) [] (l_G L) eq_refl B) as Q.
  destruct (luaD_call fuel false (VLClosure p) [] (l_G L)) as [rets g'|vs ci g'|e g'|why];
    try discriminate.
  - intros [= <- <-]. now apply Q.
  - intros [= <- <-]. now apply Q.
  - specialize (Q g' eq_refl). rewrite luaD_call_handler. now intros [= <- <-].
Qed.

Lemma assign_tostring_G (L L' : lua_State) (m : string) :
  lua.interpreter.assign_tostring L = Returns (m, L') -> l_G L' = l_G L.
Proof.
  unfold lua.interpreter.assign_tostring.
  pose proof (lua_tostring_G (-1) L) as T.
  destruct (lua_tostring (-1) L) as [[s|] L1]; [|discriminate].
  now intros [= <- <-].
Qed.

(** X9.  Extraction does not reach the map server.  In an interpreter
    whose globals hold none of the bridge functions, a call of
    [extract_metadata] that returns has sent no packet and logged no
    warning, and leaves globals that again hold no bridge function; a
    new interpreter is such an interpreter.  So no sequence of
    extractions on an interpreter sends anything. *)
Theorem extract_metadata_is_quiet (fuel : nat) (fs : lua.filesystem) (path : string)
    (self self' : lua.interpreter.impl) (r : option lua.script_metadata) :
  bridge_free_table (l_gt (l_G (lua.interpreter.lua self))) = true ->
  lua.interpreter.extract_metadata fuel fs path self = Returns (r, self') ->
  quiet (l_G (lua.interpreter.lua self)) (l_G (lua.interpreter.lua self'))
  /\ forall srv,
       bridge_free_table (l_gt (l_G (lua.interpreter.lua (lua.interpreter.new_impl srv))))
       = true.
Proof.
  intros B H. split; [|reflexivity].
  rewrite extract_metadata_unfold in H.
  destruct (lua.interpreter.load_and_call _ _ _ _) as [[m L1]| |] eqn:LC; try discriminate.
  cbv beta iota delta [obind] in H.
  assert (Q1 : quiet (l_G (lua.interpreter.lua self)) (l_G L1)).
  { unfold lua.interpreter.load_and_call in LC.
    destruct (lua_load _ _ _ _ _ _) as [[st L0]|] eqn:LD; [|discriminate].
    unfold lua_load in LD. destruct (luaZ_read _ _ _ _) as [chunk|]; [|discriminate].
    unfold load_chunk in LD.
    destruct (f_parser _ _ _) as [msg|p].
    - injection LD as <- <-. apply assign_tostring_G in LC.
      rewrite LC. now repeat split.
    - injection LD as <- <-.
      destruct (lua_pcall _ _ _ _ _) as [[st L2]| |] eqn:PC; try discriminate.
      apply pcall_quiet in PC; [|reflexivity | exact B].
      cbv beta iota delta [obind] in LC.
      destruct (negb (lua_status_eqb st LUA_OK)).
      + destruct (negb (lua_isnil L2 (-1))).
        * apply assign_tostring_G in LC. now rewrite LC.
        * now injection LC as <- <-.
      + now injection LC as <- <-. }
  unfold lua.interpreter.validate_and_fetch in H.
  destruct (negb (String.eqb m "")); [now injection H as <- <-|].
  pose proof (fetch_metadata_stack_only L1) as F.
  destruct (lua.interpreter.fetch_metadata L1) as [md L2|]; [|discriminate].
  injection H as <- <-. destruct F as [_ G]. simpl. now rewrite G.
Qed.

End ExtractionIsQuiet.

(** ** More on the bridge *)

Section MoreBridge.
Context {core : LuaCore}.

(** X10.  [extract_user_data] leaves the state as it found it, the stack
    included; it returns the pointer of a global that holds a light
    userdata and [nullptr] for any other global, also an unset one. *)
Theorem extract_user_data_result (name : string) (L : lua_State) :
  snd (lua_helpers.extract_user_data name L) = L
  /\ (forall p, luaH_getstr (l_gt (l_G L)) name = VLightUserdata p ->
        fst (lua_helpers.extract_user_data name L) = p)
  /\ ((forall p, luaH_getstr (l_gt (l_G L)) name <> VLightUserdata p) ->
        fst (lua_helpers.extract_user_data name L) = 0).
Proof.
  rewrite extract_user_data_eq. simpl. split; [reflexivity|]. split.
  - now intros p ->.
  - intros N. destruct (luaH_getstr (l_gt (l_G L)) name); try reflexivity.
    now destruct (N p).
Qed.

Lemma index2value_first (L : lua_State) (v : TValue) (rest : list TValue) :
  stack L = v :: rest -> stack_slot L 1 = Some 0%nat /\ index2value L 1 = Some v.
Proof.
  intros E. unfold index2value, stack_slot. rewrite E. simpl List.length.
  replace (1 <=? Z.of_nat (S (List.length rest))) with true
    by (symmetry; apply Z.leb_le; lia).
  now split.
Qed.

Lemma tostring_none_not_string (v : TValue) :
  luaO_tostring v = None -> v_isstring v = false.
Proof. destruct v; simpl; congruence. Qed.

Lemma tostring_some_string (v : TValue) (m : string) :
  luaO_tostring v = Some m -> v_isstring v = true.
Proof. destruct v; simpl; congruence. Qed.

(** X11.  [mes] in a valid context.  Without an argument it logs that it
    was called with no parameters; with a first argument that is neither
    a string nor a number it logs that the first parameter must be a
    string; in both cases nothing is sent.  With a string or a number it
    sends the text, for a number its decimal form, to the session of the
    context in the name of the NPC of the context, logs nothing, and
    takes no notice of further arguments. *)
Theorem mes_validation (L : lua_State) :
  lua_bridge.is_valid (fst (lua_bridge.new_script_context L)) = true ->
  (stack L = [] ->
     lua_bridge.mes L
     = CReturn 0 (with_srv (ShowWarning
         ("[lua::mes]: Trying to call with no parameters." ++ newline)) L))
  /\ (forall v rest, stack L = v :: rest -> luaO_tostring v = None ->
        lua_bridge.mes L
        = CReturn 0 (with_srv (ShowWarning
            ("[lua::mes]: First parameter must be a string." ++ newline)) L))
  /\ (forall v rest m, stack L = v :: rest -> luaO_tostring v = Some m ->
        lua_bridge.mes L
        = CReturn 0
            (with_srv (clif_send
                         (scriptmes (lua_bridge.sd (fst (lua_bridge.new_script_context L)))
                            (bl_id (l_srv (l_G L))
                               (lua_bridge.nd (fst (lua_bridge.new_script_context L))))
                            m))
               (set_stack L (VString m :: rest)))).
Proof.
  rewrite new_script_context_eq. simpl fst. intros V.
  unfold lua_bridge.mes. rewrite new_script_context_eq, V. simpl negb. cbv iota.
  split; [|split].
  - intros E. unfold context_of, lua_gettop. simpl. now rewrite E.
  - intros v rest E T.
    unfold context_of, lua_gettop. simpl lua_bridge.args. rewrite E.
    replace (Z.of_nat (List.length (v :: rest)) <? 1) with false
      by (symmetry; apply Z.ltb_ge; simpl List.length; lia).
    unfold lua_isstring. rewrite (proj2 (index2value_first L v rest E)).
    now rewrite (tostring_none_not_string v T).
  - intros v rest m E T.
    unfold context_of at 1, lua_gettop. simpl lua_bridge.args. rewrite E.
    replace (Z.of_nat (List.length (v :: rest)) <? 1) with false
      by (symmetry; apply Z.ltb_ge; simpl List.length; lia).
    unfold lua_isstring. rewrite (proj2 (index2value_first L v rest E)).
    rewrite (tostring_some_string v m T). simpl negb. cbv iota.
    unfold lua_tostring.
    rewrite (proj1 (index2value_first L v rest E)),
            (proj2 (index2value_first L v rest E)), T, E.
    reflexivity.
Qed.

Definition packet_session (p : clif_packet) : Z :=
  match p with
  | scriptmes sd _ _ | scriptnext sd _ | scriptclose sd _ => sd
  end.

Definition packet_npc (p : clif_packet) : Z :=
  match p with
  | scriptmes _ id _ | scriptnext _ id | scriptclose _ id => id
  end.

(** what a bridge call may change: it appends at most one packet, which
    goes to the session and comes from the NPC that the globals of the VM
    name, and lines to the log *)
Definition local_to_context (L L' : lua_State) : Prop :=
  l_gt (l_G L') = l_gt (l_G L)
  /\ l_threads (l_G L') = l_threads (l_G L)
  /\ bl_id (l_srv (l_G L')) = bl_id (l_srv (l_G L))
  /\ (exists ws, showmsg (l_srv (l_G L')) = (showmsg (l_srv (l_G L)) ++ ws)%list)
  /\ exists ps,
       clif_sent (l_srv (l_G L')) = (clif_sent (l_srv (l_G L)) ++ ps)%list
       /\ (List.length ps <= 1)%nat
       /\ forall p, In p ps ->
            lua_bridge.is_valid (fst (lua_bridge.new_script_context L)) = true
            /\ packet_session p = lua_bridge.sd (fst (lua_bridge.new_script_context L))
            /\ packet_npc p
               = bl_id (l_srv (l_G L)) (lua_bridge.nd (fst (lua_bridge.new_script_context L))).

Lemma local_nothing (L L' : lua_State) :
  l_G L' = l_G L -> local_to_context L L'.
Proof.
  intros E. unfold local_to_context. rewrite E.
  repeat split; try (exists []; now rewrite app_nil_r).
  exists []. rewrite app_nil_r. repeat split; simpl; try lia; contradiction.
Qed.

Lemma local_warning (L : lua_State) (w : string) :
  local_to_context L (with_srv (ShowWarning w) L).
Proof.
  repeat split; try (now exists [w]).
  exists []. simpl. rewrite app_nil_r. repeat split; simpl; try lia; contradiction.
Qed.

Lemma local_packet (L L1 : lua_State) (p : clif_packet) :
  l_G L1 = l_G L ->
  lua_bridge.is_valid (context_of L) = true ->
  packet_session p = lua_bridge.sd (context_of L) ->
  packet_npc p = bl_id (l_srv (l_G L)) (lua_bridge.nd (context_of L)) ->
  local_to_context L (with_srv (clif_send p) L1).
Proof.
  intros G V S N. unfold local_to_context. rewrite new_script_context_eq. simpl fst.
  unfold with_srv. simpl. rewrite G.
  repeat split; try (exists []; now rewrite app_nil_r).
  exists [p]. repeat split; simpl; try lia; destruct H as [<-|[]]; assumption.
Qed.

Lemma mes_is_local (L : lua_State) : local_to_context L (c_state (lua_bridge.mes L)).
Proof.
  unfold lua_bridge.mes. rewrite new_script_context_eq.
  destruct (lua_bridge.is_valid (context_of L)) eqn:V; simpl negb; cbv iota;
    [|apply local_warning].
  destruct (lua_bridge.args (context_of L) <? 1); [apply local_warning|].
  destruct (negb (lua_isstring L 1)); [apply local_warning|].
  pose proof (lua_tostring_G 1 L) as G.
  destruct (lua_tostring 1 L) as [[m|] L1]; simpl in G; simpl c_state.
  - unfold lua_bridge.clif_scriptmes, lua_bridge.nd_bl_id. rewrite G.
    now apply local_packet.
  - now apply local_nothing.
Qed.

Lemma next_is_local (L : lua_State) : local_to_context L (c_state (lua_bridge.next L)).
Proof.
  unfold lua_bridge.next. rewrite new_script_context_eq.
  destruct (lua_bridge.is_valid (context_of L)) eqn:V; simpl negb; cbv iota;
    [|now apply local_nothing].
  unfold lua_yield, lua_bridge.clif_scriptnext, lua_bridge.nd_bl_id.
  simpl l_yieldable.
  destruct (l_yieldable L); simpl c_state; now apply local_packet.
Qed.

Lemma close_is_local (L : lua_State) : local_to_context L (c_state (lua_bridge.close L)).
Proof.
  unfold lua_bridge.close. rewrite new_script_context_eq.
  destruct (lua_bridge.is_valid (context_of L)) eqn:V; simpl negb; cbv iota;
    [|now apply local_nothing].
  unfold lua_bridge.clif_scriptclose, lua_bridge.nd_bl_id. simpl c_state.
  now apply local_packet.
Qed.

(** X12.  A call of [mes], [next] or [close], however it ends, leaves the
    globals and the coroutines of the VM as they are; it appends at most
    one packet, and that packet is sent only in a valid context, to the
    session and in the name of the NPC that the globals of this VM hold.
    A bridge call in one VM never reaches the session of another. *)
Theorem bridge_call_is_local (L : lua_State) :
  local_to_context L (c_state (lua_bridge.mes L))
  /\ local_to_context L (c_state (lua_bridge.next L))
  /\ local_to_context L (c_state (lua_bridge.close L)).
Proof.
  split; [apply mes_is_local|]. split; [apply next_is_local | apply close_is_local].
Qed.

End MoreBridge.

(** ** More on the executor *)

Section MoreExecutor.
Context {core : LuaCore}.

(** X13.  The constructor of an executor leaves an empty stack, no task
    and no coroutine.  It publishes the three bridge functions, the
    bridge [next] in the place of the [next] of the base library, and
    the three pointers; a bridge call made in this VM finds a valid
    context exactly when neither the session nor the NPC pointer is
    null. *)
Theorem new_impl_publishes (this sd nd : Z) (srv : map_server) :
  let self := lua.executor.new_impl this sd nd srv in
  let g := l_G (lua.executor.lua self) in
  stack (lua.executor.lua self) = []
  /\ lua.executor.thread self = None
  /\ l_threads g = []
  /\ l_srv g = srv
  /\ luaH_getstr (l_gt g) "mes" = VCFunction c_mes
  /\ luaH_getstr (l_gt g) "next" = VCFunction c_next
  /\ luaH_getstr base_lib "next" = VCFunction (c_lib "next")
  /\ luaH_getstr (l_gt g) "close" = VCFunction c_close
  /\ luaH_getstr (l_gt g) "__executor__" = VLightUserdata this
  /\ (forall s y,
        let ctx := fst (lua_bridge.new_script_context
                          {| stack := s; l_yieldable := y; l_G := g |}) in
        lua_bridge.sd ctx = sd /\ lua_bridge.nd ctx = nd
        /\ lua_bridge.is_valid ctx = negb (sd =? 0) && negb (nd =? 0)).
Proof.
  cbv zeta. repeat (split; [reflexivity|]).
  intros s y. rewrite new_script_context_eq. now repeat split.
Qed.

(** X14.  A new executor has no task: [resume] before any [run] hands a
    null thread to [lua_resume]. *)
Theorem resume_before_run (fuel : nat) (this sd nd : Z) (srv : map_server) :
  lua.executor.resume fuel (lua.executor.new_impl this sd nd srv)
  = Aborts (NullPointer "lua_resume").
Proof. reflexivity. Qed.

(** what the map server keeps of its state over a run: the table of the
    NPCs, the packets sent so far and the lines logged so far *)
Definition grows (g g' : global_State) : Prop :=
  bl_id (l_srv g') = bl_id (l_srv g)
  /\ (exists ps, clif_sent (l_srv g') = (clif_sent (l_srv g) ++ ps)%list)
  /\ (exists ws, showmsg (l_srv g') = (showmsg (l_srv g) ++ ws)%list).

(** a run may add coroutines to those that the VM has created *)
Definition keeps (g g' : global_State) : Prop :=
  grows g g' /\ (List.length (l_threads g) <= List.length (l_threads g'))%nat.

Lemma grows_same_srv (g g' : global_State) : l_srv g' = l_srv g -> grows g g'.
Proof.
  intros E. unfold grows. rewrite E.
  repeat split; exists []; now rewrite app_nil_r.
Qed.

Lemma grows_trans (g1 g2 g3 : global_State) : grows g1 g2 -> grows g2 g3 -> grows g1 g3.
Proof.
  intros (B1 & [p1 P1] & [w1 W1]) (B2 & [p2 P2] & [w2 W2]). repeat split.
  - congruence.
  - exists (p1 ++ p2)%list. now rewrite P2, P1, app_assoc.
  - exists (w1 ++ w2)%list. now rewrite W2, W1, app_assoc.
Qed.

Lemma keeps_same (g g' : global_State) :
  l_srv g' = l_srv g -> l_threads g' = l_threads g -> keeps g g'.
Proof. intros S T. split; [now apply grows_same_srv | rewrite T; lia]. Qed.

Lemma keeps_trans (g1 g2 g3 : global_State) : keeps g1 g2 -> keeps g2 g3 -> keeps g1 g3.
Proof.
  intros [G1 T1] [G2 T2]. split; [eapply grows_trans; eassumption | lia].
Qed.

Lemma local_keeps (L L' : lua_State) : local_to_context L L' -> keeps (l_G L) (l_G L').
Proof.
  intros (_ & T & B & W & ps & P & _). split; [|rewrite T; lia].
  split; [exact B|]. split; [now exists ps | exact W].
Qed.

Lemma length_list_update {A} (l : list A) (i : nat) (a : A) :
  List.length (list_update l i a) = List.length l.
Proof.
  revert i. induction l as [|b l IH]; intros [|i]; simpl; try reflexivity.
  now rewrite IH.
Qed.

(** [coroutine.create] adds a coroutine, or raises an error. *)
Lemma cocreate_keeps (L : lua_State) : keeps (l_G L) (l_G (c_state (luaB_cocreate L))).
Proof.
  split; [apply grows_same_srv, cocreate_G|].
  unfold luaB_cocreate. destruct (negb _); [simpl; lia|].
  assert (N : List.length (l_threads (l_G (snd (lua_newthread L))))
              = S (List.length (l_threads (l_G L))))
    by (simpl; rewrite length_app; simpl; lia).
  destruct (lua_newthread L) as [NL L1]. simpl in N. cbn [c_state].
  assert (X : List.length (l_threads (l_G (lua_xmove NL 1 (lua_pushvalue 1 L1))))
              = List.length (l_threads (l_G L1))).
  { unfold lua_xmove. rewrite pushvalue_G.
    destruct (nth_error _ NL); [simpl; apply length_list_update | now rewrite pushvalue_G]. }
  lia.
Qed.

Lemma call_C_keeps (f : lua_CFunction) (L : lua_State) (r : c_result) :
  call_C f L = inr r -> keeps (l_G L) (l_G (c_state r)).
Proof.
  destruct f; simpl.
  - destruct (error_handler_G L) as (L' & -> & G). intros [= <-]. simpl.
    apply keeps_same; now rewrite G.
  - intros [= <-]. apply local_keeps, mes_is_local.
  - intros [= <-]. apply local_keeps, next_is_local.
  - intros [= <-]. apply local_keeps, close_is_local.
  - destruct (String.eqb name "error").
    { intros [= <-]. unfold luaB_error. destruct (negb _); [now apply keeps_same|].
      destruct (index2value _ 1); cbn [c_state]; apply keeps_same;
        now rewrite lua_settop_G. }
    destruct (String.eqb name "coroutine.yield").
    { intros [= <-]. unfold luaB_yield, lua_yield.
      destruct (l_yieldable L); now apply keeps_same. }
    destruct (String.eqb name "coroutine.create"); [|discriminate].
    intros [= <-]. apply cocreate_keeps.
Qed.

Lemma precall_keeps (y : bool) (f : TValue) (argv : list TValue) (g : global_State) :
  match luaD_precall y f argv g with
  | CDone _ g' | CYielded _ g' | CFailed _ g' => keeps g g'
  | _ => True
  end.
Proof.
  unfold luaD_precall. destruct f; try exact I; try (now apply keeps_same).
  pose proof (call_C_keeps f {| stack := argv; l_yieldable := y; l_G := g |}) as K.
  destruct (call_C f _) as [why|[n L'|n L'|e L']]; try exact I;
    exact (K _ eq_refl).
Qed.

Lemma execute_keeps (fuel : nat) (y : bool) (ci : list block) (g : global_State) :
  forall g', final_state (luaV_execute fuel y ci g) = Some g' -> keeps g g'.
Proof.
  revert ci g. induction fuel as [|fuel IH]; intros ci g g'; [discriminate|].
  assert (K0 : keeps g g) by (now apply keeps_same).
  destruct ci as [|[|[x e|f args|es] rest] ci]; simpl.
  - now intros [= <-].
  - destruct ci; [now intros [= <-] | now apply IH].
  - destruct (eval (l_gt g) e) as [v|]; [|now intros [= <-]].
    intros H. apply IH in H. eapply keeps_trans; [|exact H]. now apply keeps_same.
  - destruct (eval (l_gt g) f) as [fv|]; [|now intros [= <-]].
    destruct (evals (l_gt g) args) as [argv|]; [|now intros [= <-]].
    pose proof (precall_keeps y fv argv g) as P.
    destruct (luaD_precall y fv argv g) as [p|rets g1|vs g1|e g1|why].
    + now apply IH.
    + intros H. apply IH in H. eapply keeps_trans; eassumption.
    + now intros [= <-].
    + now intros [= <-].
    + discriminate.
  - destruct (evals (l_gt g) es); [|now intros [= <-]].
    destruct ci; [now intros [= <-] | now apply IH].
Qed.

Lemma call_keeps (fuel : nat) (y : bool) (f : TValue) (argv : list TValue)
    (g : global_State) :
  forall g', final_state (luaD_call fuel y f argv g) = Some g' -> keeps g g'.
Proof.
  intros g'. unfold luaD_call.
  pose proof (precall_keeps y f argv g) as P.
  destruct (luaD_precall y f argv g) as [p|rets g1|vs g1|e g1|why];
    try (now intros [= <-]); try discriminate.
  apply execute_keeps.
Qed.

(** what a resume of the coroutine [id] keeps; the coroutine is still
    there *)
Definition resumed (id : nat) (g g' : global_State) : Prop :=
  grows g g' /\ exists st, lua_status_of g' id = Some st.

Lemma put_thread_resumed (id : nat) (g g1 : global_State) (th th0 : lua_Thread) :
  nth_error (l_threads g) id = Some th0 ->
  keeps g g1 -> resumed id g (put_thread g1 id th).
Proof.
  intros N [G T].
  assert (Lt : (id < List.length (l_threads g1))%nat).
  { assert (id < List.length (l_threads g))%nat by (apply nth_error_Some; congruence).
    lia. }
  split; [exact G|].
  exists (th_status th). unfold lua_status_of, put_thread. simpl.
  now rewrite nth_error_list_update.
Qed.

Lemma resume_end_resumed (id : nat) (base : list TValue) (x : execution)
    (g : global_State) (th0 : lua_Thread) (r : lua_status * global_State) :
  nth_error (l_threads g) id = Some th0 ->
  (forall g1, final_state x = Some g1 -> keeps g g1) ->
  resume_end id base x = Returns r -> resumed id g (snd r).
Proof.
  intros N K. destruct x as [rets g1|vs ci g1|e g1|why]; simpl; try discriminate;
    intros [= <-]; simpl; apply (put_thread_resumed id g g1 _ th0 N); now apply K.
Qed.

Lemma lua_resume_resumed (fuel : nat) (id : nat) (nargs : Z) (g : global_State)
    (r : lua_status * global_State) :
  lua_resume fuel (Some id) nargs g = Returns r -> resumed id g (snd r).
Proof.
  assert (K0 : keeps g g) by (now apply keeps_same).
  unfold lua_resume. destruct (nth_error (l_threads g) id) as [th|] eqn:N; [|discriminate].
  assert (E : forall msg r', resume_error g id th nargs msg = Returns r' ->
                resumed id g (snd r')).
  { intros msg r' [= <-]. simpl. now apply (put_thread_resumed id g g _ th N). }
  destruct (th_status th); try apply E.
  - destruct (th_ci th); [|apply E].
    destruct (Nat.leb _ _); [apply E|].
    apply (resume_end_resumed id _ _ g th _ N). apply call_keeps.
  - apply (resume_end_resumed id _ _ g th _ N). apply execute_keeps.
Qed.

(** X15.  A [resume] that returns has only added to the packets sent and
    to the log; it leaves the table of the NPCs, the main stack and the
    fields of the executor as they were, and the task is still a
    coroutine of the VM. *)
Theorem resume_only_appends (fuel : nat) (self self' : lua.executor.impl) :
  lua.executor.resume fuel self = Returns self' ->
  exists id,
    lua.executor.thread self = Some id
    /\ resumed id (l_G (lua.executor.lua self)) (l_G (lua.executor.lua self'))
    /\ stack (lua.executor.lua self') = stack (lua.executor.lua self)
    /\ lua.executor.thread self' = lua.executor.thread self
    /\ lua.executor.sd self' = lua.executor.sd self
    /\ lua.executor.nd self' = lua.executor.nd self.
Proof.
  unfold lua.executor.resume.
  destruct (lua.executor.thread self) as [id|] eqn:T; [|discriminate].
  destruct (lua_resume fuel (Some id) 0 _) as [r| |] eqn:R; try discriminate.
  apply lua_resume_resumed in R.
  cbv beta iota delta [obind]. intros [= <-]. exists id.
  split; [reflexivity|]. split; [exact R|].
  destruct self as [[s y g] t sd0 nd0]. simpl in T. subst t. now repeat split.
Qed.

Lemma loadbuffer_pushes (code name : string) (L : lua_State) :
  exists st f, luaL_loadbuffer code name L = (st, api_push f L).
Proof.
  unfold luaL_loadbuffer, luaL_loadbufferx, load_chunk.
  destruct (f_parser code name None); eauto.
Qed.

Lemma started_task (self : lua.executor.impl) (f : TValue) :
  nth_error (l_threads (l_G (lua.executor.lua (started self f))))
            (List.length (l_threads (l_G (lua.executor.lua self))))
  = Some (new_task f).
Proof. simpl. rewrite nth_error_app2 by lia. now rewrite Nat.sub_diag. Qed.

(** X16.  A [run] that returns reports success whatever became of the
    load and of the task.  The task from now on is a coroutine that this
    run has created, not one that was there before; the loaded value and
    the coroutine are left on the main stack, which is two values
    higher; packets and log have only grown. *)
Theorem run_adds_a_task (fuel : nat) (code : string) (self self' : lua.executor.impl)
    (b : bool) :
  lua.executor.run fuel code self = Returns (b, self') ->
  let g := l_G (lua.executor.lua self) in
  let g' := l_G (lua.executor.lua self') in
  let id := List.length (l_threads g) in
  b = true
  /\ lua.executor.thread self' = Some id
  /\ lua_status_of g id = None
  /\ (exists st, lua_status_of g' id = Some st)
  /\ (exists f, stack (lua.executor.lua self')
                = (stack (lua.executor.lua self) ++ [f; VThread id])%list)
  /\ grows g g'.
Proof.
  destruct (loadbuffer_pushes code "b" (lua.executor.lua self)) as (st & f & LB).
  rewrite (run_after_load fuel code self st f LB).
  unfold lua.executor.resume.
  change (lua.executor.thread (started self f))
    with (Some (List.length (l_threads (l_G (lua.executor.lua self))))).
  destruct (lua_resume fuel _ 0 _) as [r| |] eqn:R; try discriminate.
  apply lua_resume_resumed in R as (G & St).
  cbv beta iota delta [obind]. intros [= <- <-].
  cbv zeta. simpl lua.executor.thread. simpl stack.
  cbn [lua.executor.lua lua.executor.set_lua l_G set_G].
  split; [reflexivity|]. split; [reflexivity|]. split; [|split; [|split]].
  - unfold lua_status_of.
    now rewrite (proj2 (nth_error_None _ _)) by lia.
  - exact St.
  - now exists f.
  - eapply grows_trans; [|exact G]. now apply grows_same_srv.
Qed.

(** X17.  When the code does not load, [run] starts a task on the
    message of the loader: the task faults at once, for a string cannot
    be called.  [run] still reports success; nothing is sent and nothing
    is logged, the message of the loader included. *)
Theorem run_load_failure (fuel : nat) (code msg : string) (self : lua.executor.impl) :
  f_parser code "b" None = inl msg ->
  exists self' th,
    lua.executor.run fuel code self = Returns (true, self')
    /\ lua.executor.thread self'
       = Some (List.length (l_threads (l_G (lua.executor.lua self))))
    /\ nth_error (l_threads (l_G (lua.executor.lua self')))
                 (List.length (l_threads (l_G (lua.executor.lua self))))
       = Some th
    /\ th_status th = LUA_ERRRUN
    /\ (exists base,
          th_stack th = (base ++ [VString "attempt to call a string value"])%list)
    /\ l_srv (l_G (lua.executor.lua self')) = l_srv (l_G (lua.executor.lua self))
    /\ l_gt (l_G (lua.executor.lua self')) = l_gt (l_G (lua.executor.lua self)).
Proof.
  intros P.
  assert (LB : luaL_loadbuffer code "b" (lua.executor.lua self)
               = (LUA_ERRSYNTAX, api_push (VString msg) (lua.executor.lua self))).
  { unfold luaL_loadbuffer, luaL_loadbufferx, load_chunk. now rewrite P. }
  rewrite (run_after_load fuel code self _ _ LB).
  unfold lua.executor.resume.
  change (lua.executor.thread (started self (VString msg)))
    with (Some (List.length (l_threads (l_G (lua.executor.lua self))))).
  unfold lua_resume. rewrite started_task. simpl.
  eexists. eexists. split; [reflexivity|]. simpl.
  split; [reflexivity|]. split.
  - rewrite list_update_end. rewrite nth_error_app2 by lia.
    rewrite Nat.sub_diag. reflexivity.
  - simpl. repeat split. now exists [].
Qed.

(** X18.  [resume] on a task that has ended, with no value left or by an
    error, runs nothing: it returns, the status of the task, the globals
    and the map server are as before, and one more message lies on the
    stack of the task. *)
Theorem resume_ended_task (fuel : nat) (self : lua.executor.impl) (id : nat)
    (th : lua_Thread) :
  lua.executor.thread self = Some id ->
  nth_error (l_threads (l_G (lua.executor.lua self))) id = Some th ->
  th_status th <> LUA_YIELD ->
  (th_status th = LUA_OK -> th_stack th = []) ->
  exists msg,
    lua.executor.resume fuel self
    = Returns (lua.executor.set_lua self
                 (set_G (lua.executor.lua self)
                    (put_thread (l_G (lua.executor.lua self)) id
                       {| th_stack := (th_stack th ++ [VString msg])%list;
                          th_ci := th_ci th;
                          th_status := th_status th |})))
    /\ (msg = "cannot resume dead coroutine"
        \/ msg = "cannot resume non-suspended coroutine").
Proof.
  intros T N Y E. unfold lua.executor.resume. rewrite T.
  unfold lua_resume. rewrite N.
  assert (R : forall msg, resume_error (l_G (lua.executor.lua self)) id th 0 msg
              = Returns (LUA_ERRRUN,
                  put_thread (l_G (lua.executor.lua self)) id
                    {| th_stack := (th_stack th ++ [VString msg])%list;
                       th_ci := th_ci th; th_status := th_status th |})).
  { intros msg. unfold resume_error. simpl Z.to_nat.
    now rewrite Nat.sub_0_r, firstn_all. }
  destruct (th_status th) eqn:S; try (now destruct Y);
    try (exists "cannot resume dead coroutine"; rewrite R; split; [reflexivity | now left]).
  destruct (th_ci th) eqn:C.
  - rewrite (E eq_refl) in *. simpl.
    exists "cannot resume dead coroutine". split; [|now left].
    unfold resume_error. simpl. now rewrite C, S, (E eq_refl).
  - exists "cannot resume non-suspended coroutine". rewrite R. split; [|now right].
    reflexivity.
Qed.

Lemma send_all_gt (ps : list clif_packet) (g : global_State) :
  l_gt (send_all ps g) = l_gt g.
Proof. revert g. induction ps as [|p ps IH]; intros g; simpl; [reflexivity | now rewrite IH]. Qed.

Lemma send_all_showmsg (ps : list clif_packet) (g : global_State) :
  showmsg (l_srv (send_all ps g)) = showmsg (l_srv g).
Proof. revert g. induction ps as [|p ps IH]; intros g; simpl; [reflexivity | now rewrite IH]. Qed.

(** The call of a global that is not set raises an error, whatever its
    arguments are. *)
Lemma execute_call_unset (fuel : nat) (y : bool) (f : string) (args : list expr)
    (rest : block) (ci : list block) (g : global_State) :
  luaH_getstr (l_gt g) f = VNil ->
  exists e, luaV_execute (S fuel) y ((SCall (EGlobal f) args :: rest) :: ci) g = Errored e g.
Proof.
  intros U. simpl. rewrite U.
  destruct (evals (l_gt g) args) as [argv|err]; cbn [luaD_precall]; eauto.
Qed.

(** X19.  A task that calls a global that is not set, after some lines,
    faults: [resume] returns, the task has the status LUA_ERRRUN, the
    lines are sent, nothing closes the dialog and nothing is logged. *)
Theorem task_fault_is_silent (n : nat) (self : lua.executor.impl) (id : nat)
    (msgs : list string) (f : string) (args : list expr) (rest : block) (sd nd : Z) :
  lua.executor.thread self = Some id ->
  nth_error (l_threads (l_G (lua.executor.lua self))) id
  = Some (new_task (VLClosure (List.map mes_call msgs ++ SCall (EGlobal f) args :: rest)%list)) ->
  bridge_ready (l_G (lua.executor.lua self)) sd nd ->
  luaH_getstr (l_gt (l_G (lua.executor.lua self))) f = VNil ->
  exists self',
    lua.executor.resume (List.length msgs + S n) self = Returns self'
    /\ lua_status_of (l_G (lua.executor.lua self')) id = Some LUA_ERRRUN
    /\ clif_sent (l_srv (l_G (lua.executor.lua self')))
       = (clif_sent (l_srv (l_G (lua.executor.lua self)))
          ++ List.map (scriptmes sd (bl_id (l_srv (l_G (lua.executor.lua self))) nd)) msgs)%list
    /\ showmsg (l_srv (l_G (lua.executor.lua self')))
       = showmsg (l_srv (l_G (lua.executor.lua self))).
Proof.
  intros T N R U.
  rewrite (resume_fresh _ self id _ T N).
  rewrite (execute_mes_calls msgs _ [] (S n) true _ sd nd R).
  destruct (execute_call_unset n true f args rest []
              (send_all (List.map (scriptmes sd
                 (bl_id (l_srv (l_G (lua.executor.lua self))) nd)) msgs)
                 (l_G (lua.executor.lua self)))) as [e X];
    [now rewrite send_all_gt|].
  change (list stmt) with block in X. rewrite X. clear X.
  cbn [resume_end obind snd].
  eexists. split; [reflexivity|].
  cbn [lua.executor.lua lua.executor.set_lua l_G set_G]. split; [|split].
  - apply lua_status_put_thread with (th0 := new_task
      (VLClosure (List.map mes_call msgs ++ SCall (EGlobal f) args :: rest)%list)).
    now rewrite send_all_threads.
  - unfold put_thread. simpl. apply send_all_sent.
  - unfold put_thread. simpl. apply send_all_showmsg.
Qed.

End MoreExecutor.

(** ** The conversions of the fetch functions *)

Section FetchConversions.
Context {core : LuaCore}.

(** X20.  [fetch_number] on a table, with its stack restored in every
    case: an integer is cut to the 32 bits of an [int], so it is given
    as it is when it fits; a float without an integer value counts as a
    number and is given as 0; a string that spells an integer is
    converted. *)
Theorem fetch_number_conversions (L : lua_State) (base : list TValue) (h : Table)
    (k : string) :
  stack L = (base ++ [VTable h])%list ->
  (forall i, luaH_getstr h k = VInteger i ->
     lua.interpreter.fetch_number k L = Ok (cast_int i) L)
  /\ (forall i, luaH_getstr h k = VInteger i -> in_int i ->
        lua.interpreter.fetch_number k L = Ok i L)
  /\ (forall n, luaH_getstr h k = VFloat n -> luaV_flttointns n = None ->
        lua.interpreter.fetch_number k L = Ok 0 L)
  /\ (forall s i, luaH_getstr h k = VString s -> luaO_str2num s = Some (inl i) ->
        lua.interpreter.fetch_number k L = Ok (cast_int i) L).
Proof.
  intros E. split; [|split; [|split]].
  - intros i V. rewrite (fetch_number_set L base h k E); now rewrite V.
  - intros i V I. rewrite (fetch_number_set L base h k E); rewrite V; [|reflexivity].
    simpl. now rewrite cast_int_id.
  - intros n V F. rewrite (fetch_number_set L base h k E); rewrite V; [|reflexivity].
    unfold v_tointeger. simpl. now rewrite F.
  - intros s i V S. rewrite (fetch_number_set L base h k E); rewrite V.
    + unfold v_tointeger. simpl. now rewrite S.
    + simpl. now rewrite S.
Qed.


End FetchConversions.

(** ** [close] and the end of a task *)

Section CloseFacts.
Context {core : LuaCore}.

Definition close_call : stmt := SCall (EGlobal "close") [].

(** X22.  [close] does not end the task.  A task that calls [close] and
    then [mes] for some lines sends the closing packet and after it
    every line, and ends with the status LUA_OK. *)
Theorem close_does_not_end_the_task (n : nat) (self : lua.executor.impl) (id : nat)
    (msgs : list string) (sd nd : Z) :
  lua.executor.thread self = Some id ->
  nth_error (l_threads (l_G (lua.executor.lua self))) id
  = Some (new_task (VLClosure (close_call :: List.map mes_call msgs))) ->
  bridge_ready (l_G (lua.executor.lua self)) sd nd ->
  exists self',
    lua.executor.resume (S (List.length msgs + S n)) self = Returns self'
    /\ lua_status_of (l_G (lua.executor.lua self')) id = Some LUA_OK
    /\ clif_sent (l_srv (l_G (lua.executor.lua self')))
       = (clif_sent (l_srv (l_G (lua.executor.lua self)))
          ++ scriptclose sd (bl_id (l_srv (l_G (lua.executor.lua self))) nd)
             :: List.map (scriptmes sd (bl_id (l_srv (l_G (lua.executor.lua self))) nd))
                  msgs)%list.
Proof.
  intros T N R.
  rewrite (resume_fresh _ self id _ T N).
  unfold close_call. rewrite (execute_close _ _ [] _ sd nd true R).
  pose proof (bridge_ready_send _ sd nd
                (scriptclose sd (bl_id (l_srv (l_G (lua.executor.lua self))) nd)) R) as R1.
  pose proof (execute_mes_calls msgs [] [] (S n) true _ sd nd R1) as X.
  rewrite app_nil_r in X. change (list stmt) with block in X. rewrite X. clear X.
  rewrite execute_end.
  cbn [resume_end obind snd].
  eexists. split; [reflexivity|].
  cbn [lua.executor.lua lua.executor.set_lua l_G set_G]. split.
  - apply lua_status_put_thread with (th0 := new_task
      (VLClosure (close_call :: List.map mes_call msgs))).
    now rewrite send_all_threads.
  - unfold put_thread. simpl. rewrite send_all_sent. simpl.
    now rewrite <- app_assoc.
Qed.

End CloseFacts.

(** ** The further properties on the reference core *)

Module MoreExamples.
Import Examples.
#[local] Existing Instance MiniLua.core.

Ltac run := reflexivity.


Definition guard_table : Table :=
  [("map", VString EmptyString); ("sprite", VInteger 0); ("facing", VInteger 0);
   ("y", VInteger 200); ("x", VInteger 150); ("name", VString "Guard")].

(** the globals that the chunk of guard.lua leaves *)
Definition guard_globals : global_State :=
  match lua.interpreter.chunk_result 10 files "guard.lua" fresh with
  | inr (Finished _ g) => g
  | _ => l_G (lua.interpreter.lua fresh)
  end.

(** the scenario: the code is the stripped dump of its function *)
Lemma extract_metadata_code_witness :
  (2 <= 10)%nat
  /\ lua.interpreter.chunk_result 10 files "guard.lua" fresh
     = inr (Finished [VTable guard_table] guard_globals)
  /\ placement_set guard_table
  /\ exists md self',
       lua.interpreter.extract_metadata 10 files "guard.lua" fresh = Returns (Some md, self')
       /\ lua.code md = Some {| lua.bytes := flatten (luaU_dump guard_body true) |}.
Proof.
  assert (F : (2 <= 10)%nat) by (repeat constructor).
  assert (H : lua.interpreter.chunk_result 10 files "guard.lua" fresh
              = inr (Finished [VTable guard_table] guard_globals)) by run.
  assert (P : placement_set guard_table) by (repeat split).
  do 3 (split; [assumption|]).
  destruct (extract_metadata_code 10 files "guard.lua" fresh _ _ _ F H eq_refl P)
    as (md & self' & E & C).
  exists md, self'. split; [exact E | exact C].
Defined.

(** the metadata of sign.lua, read from the path sign.lua *)
Lemma metadata_path_is_empty_witness :
  lua.interpreter.extract_metadata 10 files "sign.lua" fresh
  = Returns (Some (table_metadata sign_table None),
             after (lua.interpreter.extract_metadata 10 files "sign.lua" fresh))
  /\ lua.path (table_metadata sign_table None) = EmptyString.
Proof.
  assert (H : lua.interpreter.extract_metadata 10 files "sign.lua" fresh
              = Returns (Some (table_metadata sign_table None),
                         after (lua.interpreter.extract_metadata 10 files "sign.lua" fresh)))
    by run.
  split; [exact H|].
  exact (metadata_path_is_empty 10 files "sign.lua" fresh _ _ H).
Defined.

Lemma metadata_numbers_are_ints_witness :
  lua.interpreter.extract_metadata 10 files "sign.lua" fresh
  = Returns (Some (table_metadata sign_table None),
             after (lua.interpreter.extract_metadata 10 files "sign.lua" fresh))
  /\ in_int (lua.x (table_metadata sign_table None))
  /\ in_int (lua.sprite (table_metadata sign_table None)).
Proof.
  assert (H : lua.interpreter.extract_metadata 10 files "sign.lua" fresh
              = Returns (Some (table_metadata sign_table None),
                         after (lua.interpreter.extract_metadata 10 files "sign.lua" fresh)))
    by run.
  split; [exact H|].
  destruct (metadata_numbers_are_ints 10 files "sign.lua" fresh _ _ H)
    as ((X & _ & _ & S) & _).
  split; [exact X | exact S].
Defined.

Definition nox_table : Table :=
  [("name", VString "Sign"); ("map", VString "prontera"); ("sprite", VInteger 837);
   ("facing", VInteger 4); ("y", VInteger 20)].

(** a table without the field x *)
Lemma extract_metadata_unset_placement_witness :
  (2 <= 10)%nat
  /\ lua.interpreter.chunk_result 10 files "nox.lua" fresh
     = inr (Finished [VTable nox_table] (l_G (lua.interpreter.lua fresh)))
  /\ number_or_unset nox_table "x" /\ number_or_unset nox_table "y"
  /\ number_or_unset nox_table "facing" /\ number_or_unset nox_table "sprite"
  /\ string_or_unset nox_table "map"
  /\ ~ placement_set nox_table
  /\ lua.interpreter.extract_metadata 10 files "nox.lua" fresh
     = Aborts (Panic (VString "attempt to index a nil value")).
Proof.
  assert (F : (2 <= 10)%nat) by (repeat constructor).
  assert (H : lua.interpreter.chunk_result 10 files "nox.lua" fresh
              = inr (Finished [VTable nox_table] (l_G (lua.interpreter.lua fresh)))) by run.
  assert (X : number_or_unset nox_table "x") by (right; run).
  assert (Y : number_or_unset nox_table "y") by (left; run).
  assert (Fa : number_or_unset nox_table "facing") by (left; run).
  assert (S : number_or_unset nox_table "sprite") by (left; run).
  assert (M : string_or_unset nox_table "map") by (left; run).
  assert (N : ~ placement_set nox_table) by (intros [A _]; discriminate A).
  do 8 (split; [assumption|]).
  exact (extract_metadata_unset_placement 10 files "nox.lua" fresh _ _ _
           F H eq_refl X Y Fa S M N).
Defined.

(** what [extract_metadata] gave *)
Definition value_of (o : outcome (option lua.script_metadata * lua.interpreter.impl))
  : option lua.script_metadata :=
  match o with
  | Returns (r, _) => r
  | _ => None
  end.

(** a script that creates a coroutine while its chunk runs *)
Definition spawn_lua : string :=
  "coroutine.create(print)
   return { name = 'Sign', x = 10, y = 20, facing = 4, sprite = 837, map = 'prontera' }".

Definition spawn_files : lua.filesystem := fun _ => Some spawn_lua.

(** the extraction of that script on a new interpreter *)
Lemma extract_metadata_is_quiet_witness :
  bridge_free_table (l_gt (l_G (lua.interpreter.lua fresh))) = true
  /\ lua.interpreter.extract_metadata 10 spawn_files "spawn.lua" fresh
     = Returns (Some (table_metadata sign_table None),
                after (lua.interpreter.extract_metadata 10 spawn_files "spawn.lua" fresh))
  /\ quiet (l_G (lua.interpreter.lua fresh))
           (l_G (lua.interpreter.lua
                   (after (lua.interpreter.extract_metadata 10 spawn_files "spawn.lua"
                             fresh)))).
Proof.
  assert (B : bridge_free_table (l_gt (l_G (lua.interpreter.lua fresh))) = true) by run.
  assert (H : lua.interpreter.extract_metadata 10 spawn_files "spawn.lua" fresh
              = Returns (Some (table_metadata sign_table None),
                         after (lua.interpreter.extract_metadata 10 spawn_files "spawn.lua"
                                  fresh)))
    by run.
  do 2 (split; [assumption|]).
  exact (proj1 (extract_metadata_is_quiet 10 spawn_files "spawn.lua" fresh _ _ B H)).
Defined.

(** the coroutine of that script exists when the extraction has returned *)
Example spawn_leaves_a_coroutine :
  List.length (l_threads (l_G (lua.interpreter.lua
     (after (lua.interpreter.extract_metadata 10 spawn_files "spawn.lua" fresh)))))
  = 1%nat.
Proof. run. Qed.

(** [mes(42)] in a task of an executor *)
Definition mes_42 : lua_State :=
  {| stack := [VInteger 42; VString "ignored"]; l_yieldable := true;
     l_G := l_G (lua.executor.lua (lua.executor.new_impl 77 5 9 srv0)) |}.

Lemma mes_validation_witness :
  lua_bridge.is_valid (fst (lua_bridge.new_script_context mes_42)) = true
  /\ lua_bridge.mes mes_42
     = CReturn 0 (with_srv (clif_send (scriptmes 5 110 "42"))
                    (set_stack mes_42 [VString "42"; VString "ignored"])).
Proof.
  assert (V : lua_bridge.is_valid (fst (lua_bridge.new_script_context mes_42)) = true) by run.
  split; [exact V|].
  destruct (mes_validation mes_42 V) as (_ & _ & S).
  exact (S (VInteger 42) [VString "ignored"] "42"%string eq_refl eq_refl).
Defined.

(** the executor after a call *)
Definition then_ (o : outcome lua.executor.impl) : lua.executor.impl :=
  match o with
  | Returns self => self
  | _ => lua.executor.new_impl 77 5 9 srv0
  end.

(** a task that creates a coroutine, sends a line and waits *)
Definition spawner : block :=
  [SCall (EIndex (EGlobal "coroutine") "create") [EGlobal "mes"];
   mes_call "Hello."; SCall (EGlobal "next") []; SCall (EGlobal "close") []].

Definition spawner_task : lua.executor.impl :=
  started (lua.executor.new_impl 77 5 9 srv0) (VLClosure spawner).

(** after its first resume the VM has two coroutines, the task in the
    first place *)
Example spawner_has_two_coroutines :
  List.length (l_threads (l_G (lua.executor.lua
     (then_ (lua.executor.resume 4 spawner_task))))) = 2%nat
  /\ lua_status_of (l_G (lua.executor.lua (then_ (lua.executor.resume 4 spawner_task)))) 0
     = Some LUA_YIELD
  /\ clif_sent (l_srv (l_G (lua.executor.lua (then_ (lua.executor.resume 4 spawner_task)))))
     = [scriptmes 5 110 "Hello."; scriptnext 5 110].
Proof. repeat split; run. Qed.

(** the first resume of the spawner *)
Lemma resume_only_appends_witness :
  lua.executor.resume 4 spawner_task = Returns (then_ (lua.executor.resume 4 spawner_task))
  /\ grows (l_G (lua.executor.lua spawner_task))
           (l_G (lua.executor.lua (then_ (lua.executor.resume 4 spawner_task))))
  /\ stack (lua.executor.lua (then_ (lua.executor.resume 4 spawner_task)))
     = stack (lua.executor.lua spawner_task).
Proof.
  assert (H : lua.executor.resume 4 spawner_task
              = Returns (then_ (lua.executor.resume 4 spawner_task))) by run.
  split; [exact H|].
  destruct (resume_only_appends 4 spawner_task _ H) as (id & _ & (G & _) & S & _).
  split; [exact G | exact S].
Defined.

(** a run of the dump of the spawner on a new executor *)
Lemma run_adds_a_task_witness :
  lua.executor.run 4 (flatten (luaU_dump spawner true)) (lua.executor.new_impl 77 5 9 srv0)
  = Returns (true, ran (lua.executor.run 4 (flatten (luaU_dump spawner true))
                          (lua.executor.new_impl 77 5 9 srv0)))
  /\ lua.executor.thread
       (ran (lua.executor.run 4 (flatten (luaU_dump spawner true))
               (lua.executor.new_impl 77 5 9 srv0)))
     = Some 0%nat
  /\ exists st,
       lua_status_of
         (l_G (lua.executor.lua
            (ran (lua.executor.run 4 (flatten (luaU_dump spawner true))
                    (lua.executor.new_impl 77 5 9 srv0))))) 0
       = Some st.
Proof.
  assert (H : lua.executor.run 4 (flatten (luaU_dump spawner true))
                (lua.executor.new_impl 77 5 9 srv0)
              = Returns (true, ran (lua.executor.run 4 (flatten (luaU_dump spawner true))
                                      (lua.executor.new_impl 77 5 9 srv0)))) by run.
  split; [exact H|].
  destruct (run_adds_a_task 4 (flatten (luaU_dump spawner true))
              (lua.executor.new_impl 77 5 9 srv0) _ _ H)
    as (_ & T & _ & St & _).
  split; [exact T | exact St].
Defined.

(** a run of text that does not parse *)
Lemma run_load_failure_witness :
  f_parser bad_lua "b" None = inl ": syntax error"%string
  /\ exists self',
       lua.executor.run 3 bad_lua (lua.executor.new_impl 77 5 9 srv0) = Returns (true, self')
       /\ lua_status_of (l_G (lua.executor.lua self')) 0 = Some LUA_ERRRUN
       /\ l_srv (l_G (lua.executor.lua self')) = srv0.
Proof.
  assert (P : f_parser bad_lua "b" None = inl ": syntax error"%string) by run.
  split; [exact P|].
  destruct (run_load_failure 3 bad_lua _ (lua.executor.new_impl 77 5 9 srv0) P)
    as (self' & th & R & _ & N & S & _ & V & _).
  exists self'. split; [exact R|]. split; [|exact V].
  change (nth_error (l_threads (l_G (lua.executor.lua self'))) 0 = Some th) in N.
  unfold lua_status_of. now rewrite N, S.
Defined.

(** a task that only closes the dialog, after its run *)
Definition closed_task : lua.executor.impl :=
  then_ (lua.executor.resume 3
           (started (lua.executor.new_impl 77 5 9 srv0) (VLClosure [close_call]))).

Definition ended : lua_Thread :=
  {| th_stack := []; th_ci := []; th_status := LUA_OK |}.

Lemma resume_ended_task_witness :
  lua.executor.thread closed_task = Some 0%nat
  /\ nth_error (l_threads (l_G (lua.executor.lua closed_task))) 0 = Some ended
  /\ th_status ended <> LUA_YIELD
  /\ (th_status ended = LUA_OK -> th_stack ended = [])
  /\ exists msg,
       lua.executor.resume 3 closed_task
       = Returns (lua.executor.set_lua closed_task
                    (set_G (lua.executor.lua closed_task)
                       (put_thread (l_G (lua.executor.lua closed_task)) 0
                          {| th_stack := (th_stack ended ++ [VString msg])%list;
                             th_ci := th_ci ended;
                             th_status := th_status ended |})))
       /\ (msg = "cannot resume dead coroutine"%string
           \/ msg = "cannot resume non-suspended coroutine"%string).
Proof.
  assert (T : lua.executor.thread closed_task = Some 0%nat) by run.
  assert (N : nth_error (l_threads (l_G (lua.executor.lua closed_task))) 0 = Some ended)
    by run.
  assert (Y : th_status ended <> LUA_YIELD) by discriminate.
  assert (E : th_status ended = LUA_OK -> th_stack ended = []) by reflexivity.
  do 4 (split; [assumption|]).
  exact (resume_ended_task 3 closed_task 0 ended T N Y E).
Defined.

(** a task with a misspelt [close] *)
Definition misspelt : block :=
  (List.map mes_call ["Hello."%string] ++ [SCall (EGlobal "closs") []])%list.

Definition misspelt_task : lua.executor.impl :=
  started (lua.executor.new_impl 77 5 9 srv0) (VLClosure misspelt).

Lemma task_fault_is_silent_witness :
  lua.executor.thread misspelt_task = Some 0%nat
  /\ nth_error (l_threads (l_G (lua.executor.lua misspelt_task))) 0
     = Some (new_task (VLClosure misspelt))
  /\ bridge_ready (l_G (lua.executor.lua misspelt_task)) 5 9
  /\ luaH_getstr (l_gt (l_G (lua.executor.lua misspelt_task))) "closs" = VNil
  /\ exists self',
       lua.executor.resume 2 misspelt_task = Returns self'
       /\ lua_status_of (l_G (lua.executor.lua self')) 0 = Some LUA_ERRRUN
       /\ clif_sent (l_srv (l_G (lua.executor.lua self'))) = [scriptmes 5 110 "Hello."]
       /\ showmsg (l_srv (l_G (lua.executor.lua self'))) = [].
Proof.
  assert (T : lua.executor.thread misspelt_task = Some 0%nat) by run.
  assert (N : nth_error (l_threads (l_G (lua.executor.lua misspelt_task))) 0
              = Some (new_task (VLClosure misspelt))) by run.
  assert (R : bridge_ready (l_G (lua.executor.lua misspelt_task)) 5 9)
    by (repeat split; try run; discriminate).
  assert (U : luaH_getstr (l_gt (l_G (lua.executor.lua misspelt_task))) "closs" = VNil)
    by run.
  do 4 (split; [assumption|]).
  destruct (task_fault_is_silent 0 misspelt_task 0 ["Hello."%string] "closs" [] [] 5 9
              T N R U) as (self' & H1 & H2 & H3 & H4).
  exists self'. repeat split; assumption.
Defined.

(** the table of sign.lua on the stack *)
Definition on_sign : lua_State :=
  {| stack := [VTable sign_table]; l_yieldable := false;
     l_G := l_G (lua.interpreter.lua fresh) |}.

Lemma fetch_number_conversions_witness :
  stack on_sign = ([] ++ [VTable sign_table])%list
  /\ lua.interpreter.fetch_number "sprite" on_sign = Ok 837 on_sign.
Proof.
  assert (E : stack on_sign = ([] ++ [VTable sign_table])%list) by run.
  split; [exact E|].
  destruct (fetch_number_conversions on_sign [] sign_table "sprite" E) as (_ & I & _).
  apply (I 837 eq_refl). unfold in_int. lia.
Defined.


(** a task that closes the dialog and then speaks *)
Definition late : block := close_call :: List.map mes_call ["Wait!"%string].

Definition late_task : lua.executor.impl :=
  started (lua.executor.new_impl 77 5 9 srv0) (VLClosure late).

Lemma close_does_not_end_the_task_witness :
  lua.executor.thread late_task = Some 0%nat
  /\ nth_error (l_threads (l_G (lua.executor.lua late_task))) 0
     = Some (new_task (VLClosure late))
  /\ bridge_ready (l_G (lua.executor.lua late_task)) 5 9
  /\ exists self',
       lua.executor.resume 3 late_task = Returns self'
       /\ lua_status_of (l_G (lua.executor.lua self')) 0 = Some LUA_OK
       /\ clif_sent (l_srv (l_G (lua.executor.lua self')))
          = [scriptclose 5 110; scriptmes 5 110 "Wait!"].
Proof.
  assert (T : lua.executor.thread late_task = Some 0%nat) by run.
  assert (N : nth_error (l_threads (l_G (lua.executor.lua late_task))) 0
              = Some (new_task (VLClosure late))) by run.
  assert (R : bridge_ready (l_G (lua.executor.lua late_task)) 5 9)
    by (repeat split; try run; discriminate).
  do 3 (split; [assumption|]).
  destruct (close_does_not_end_the_task 0 late_task 0 ["Wait!"%string] 5 9 T N R)
    as (self' & H1 & H2 & H3).
  exists self'. repeat split; assumption.
Defined.

End MoreExamples.
